(** * congress-trades-bot: the scraper's normalisation and aggregation core

    A shallow embedding of [bot.py]: header resolution
    ([_guess_header_map]), table extraction and cleaning
    ([_extract_from_html]), the mirror fallback ([load_public_fallback])
    and the two aggregations ([group_daily], [trend_30d]).

    Conventions.
    - Python [str] values are [string]s of ASCII characters; case mapping
      and the whitespace class are the ASCII restrictions of Python's.
    - Timestamps are integers ([Z]); a missing one ([NaT]) is [None].
    - A parsed HTML document is the tree BeautifulSoup hands back.
    - pandas calls are embedded by what they do on the frames this
      program builds (object columns, pandas 2 semantics). *)

From Stdlib Require Import List String Ascii ZArith Lia Bool Sorted Permutation.
From Stdlib Require DecimalString.
Import ListNotations.
Open Scope string_scope.
Open Scope Z_scope.

(** ** Text *)

Module Text.

(** [str.isspace] on one ASCII character: TAB..CR, FS..US and space. *)
Definition is_space (c : ascii) : bool :=
  let n := nat_of_ascii c in
  ((9 <=? n) && (n <=? 13) || (28 <=? n) && (n <=? 32))%nat.

Definition is_upper (c : ascii) : bool :=
  let n := nat_of_ascii c in ((65 <=? n) && (n <=? 90))%nat.

Definition is_lower (c : ascii) : bool :=
  let n := nat_of_ascii c in ((97 <=? n) && (n <=? 122))%nat.

Definition upper_char (c : ascii) : ascii :=
  if is_lower c then ascii_of_nat (nat_of_ascii c - 32) else c.

Definition lower_char (c : ascii) : ascii :=
  if is_upper c then ascii_of_nat (nat_of_ascii c + 32) else c.

Fixpoint smap (f : ascii -> ascii) (s : string) : string :=
  match s with
  | EmptyString => EmptyString
  | String c r => String (f c) (smap f r)
  end.

Fixpoint sfilter (p : ascii -> bool) (s : string) : string :=
  match s with
  | EmptyString => EmptyString
  | String c r => if p c then String c (sfilter p r) else sfilter p r
  end.

(** [s.upper()], [s.lower()] *)
Definition upper (s : string) : string := smap upper_char s.
Definition lower (s : string) : string := smap lower_char s.

(** [s.lstrip()], [s.rstrip()], [s.strip()] *)
Fixpoint lstrip (s : string) : string :=
  match s with
  | EmptyString => EmptyString
  | String c r => if is_space c then lstrip r else s
  end.

Fixpoint rstrip (s : string) : string :=
  match s with
  | EmptyString => EmptyString
  | String c r =>
      match rstrip r with
      | EmptyString => if is_space c then EmptyString else String c EmptyString
      | r' => String c r'
      end
  end.

Definition strip (s : string) : string := rstrip (lstrip s).

(** [re.sub(r"\s+", " ", s)]: every maximal run of whitespace becomes one
    space.  [in_run] tells that the previous character was whitespace. *)
Fixpoint collapse_ws_from (in_run : bool) (s : string) : string :=
  match s with
  | EmptyString => EmptyString
  | String c r =>
      if is_space c
      then if in_run then collapse_ws_from true r
           else String " "%char (collapse_ws_from true r)
      else String c (collapse_ws_from false r)
  end.

Definition collapse_ws (s : string) : string := collapse_ws_from false s.

(** [key in t] on strings: [key] occurs in [t] as a substring. *)
Fixpoint contains (key t : string) : bool :=
  prefix key t ||
  match t with
  | EmptyString => false
  | String _ r => contains key r
  end.

(** [Series.str.contains(r"a|b", case=False)] on one value, for an
    alternation of literal words. *)
Definition contains_any_ci (words : list string) (s : string) : bool :=
  existsb (fun w => contains w (lower s)) words.

(** The character class [A-Z.] *)
Definition is_AZdot (c : ascii) : bool :=
  is_upper c || Ascii.eqb c "."%char.

(** [s.upper()] with every character outside [A-Z.] then deleted: the
    ticker cleaning of lines 81 and 139. *)
Definition clean_ticker (s : string) : string := sfilter is_AZdot (upper s).

End Text.

(** ** Header resolution: [_guess_header_map] *)

Module Header.
Import Text.

(** The keys of the [want] dictionary. *)
Inductive field := ticker | name | company | type | filing_date | transaction_date.

Definition field_eqb (a b : field) : bool :=
  match a, b with
  | ticker, ticker | name, name | company, company | type, type
  | filing_date, filing_date | transaction_date, transaction_date => true
  | _, _ => false
  end.

(** [want], in the dictionary's insertion order. *)
Definition want : list (field * list string) :=
  [ (ticker, ["ticker"; "symbol"]);
    (name, ["politician"; "member"; "representative"; "senator"; "name"]);
    (company, ["company"; "asset"; "asset description"]);
    (type, ["type"; "transaction"; "transaction type"]);
    (filing_date, ["filing"; "disclosure"; "filed"; "filing date";
                   "disclosure date"; "date filed"]);
    (transaction_date, ["transaction date"; "trade date";
                        "date of transaction"]) ].

(** The dictionary [out]: field to column index, [-1] for "not found". *)
Definition header_map := list (field * Z).

(** [out.get(k, -1)] (and [out[k]], every key being present). *)
Fixpoint get (out : header_map) (k : field) : Z :=
  match out with
  | [] => -1
  | (k', v) :: r => if field_eqb k k' then v else get r k
  end.

(** [out[k] = v] on a key that is present. *)
Fixpoint set (out : header_map) (k : field) (v : Z) : header_map :=
  match out with
  | [] => []
  | (k', v') :: r =>
      if field_eqb k k' then (k', v) :: r else (k', v') :: set r k v
  end.

(** [re.sub(r"\s+", " ", t).strip().lower()] *)
Definition normalise (t : string) : string := lower (strip (collapse_ws t)).

(** [any(key in t for key in keys)] *)
Definition any_key_in (keys : list string) (t : string) : bool :=
  existsb (fun key => contains key t) keys.

(** The body of the inner loop, for header [t] at position [i]. *)
Definition scan_field (i : Z) (t : string)
    (out : header_map) (kv : field * list string) : header_map :=
  let (k, keys) := kv in
  if (get out k =? -1) && any_key_in keys t then set out k i else out.

(** One turn of the outer loop: [for k, keys in want.items(): ...] *)
Definition scan_header (out : header_map) (it : Z * string) : header_map :=
  let (i, t) := it in fold_left (scan_field i t) want out.

(** [enumerate(th)], counting from [i]. *)
Fixpoint enumerate_from (i : Z) (th : list string) : list (Z * string) :=
  match th with
  | [] => []
  | t :: r => (i, t) :: enumerate_from (i + 1) r
  end.

Definition _guess_header_map (th_texts : list string) : header_map :=
  let th := map normalise th_texts in
  let out := map (fun kv => (fst kv, -1)) want in
  fold_left scan_header (enumerate_from 0 th) out.

(** [want[k]], and whether header text [t] carries one of the aliases of
    [k] once normalised. *)
Definition aliases (k : field) : list string :=
  match find (fun kv => field_eqb k (fst kv)) want with
  | Some kv => snd kv
  | None => []
  end.

Definition carries_alias (k : field) (t : string) : bool :=
  any_key_in (aliases k) (normalise t).

(** [any(cmap[k] == -1 for k in ("ticker", "name", "type"))] *)
Definition lacks_required (cmap : header_map) : bool :=
  existsb (fun k => get cmap k =? -1) [ticker; name; type].

(** [max(cmap.values())] *)
Definition max_index (cmap : header_map) : Z :=
  match map snd cmap with
  | [] => -1
  | v :: vs => fold_left Z.max vs v
  end.

End Header.

(** ** The parsed document: what BeautifulSoup returns *)

Module Html.
Import Text.

(** A [NavigableString] or a [Tag] with its name and contents. *)
#[warnings="-register-all"] Inductive node :=
| Text (s : string)
| Tag (tag_name : string) (contents : list node).

(** Induction on a node, with the property known of its contents. *)
Section NodeInduction.
Variable P : node -> Prop.
Hypothesis P_text : forall s, P (Text s).
Hypothesis P_tag : forall nm ks, Forall P ks -> P (Tag nm ks).

Fixpoint node_induction (n : node) : P n :=
  match n with
  | Text s => P_text s
  | Tag nm ks =>
      P_tag nm ks
        ((fix all (l : list node) : Forall P l :=
            match l with
            | [] => Forall_nil P
            | k :: r => Forall_cons k (node_induction k) (all r)
            end) ks)
  end.

End NodeInduction.

(** [n.descendants]: every node below [n], in document order. *)
Fixpoint descendants (n : node) : list node :=
  match n with
  | Text _ => []
  | Tag _ ks => flat_map (fun k => k :: descendants k) ks
  end.

Definition is_named (names : list string) (n : node) : bool :=
  match n with
  | Text _ => false
  | Tag nm _ => existsb (String.eqb nm) names
  end.

(** [n.find_all(names)], [n.find_all(names, limit=k)], [n.find(name)] *)
Definition find_all (names : list string) (n : node) : list node :=
  filter (is_named names) (descendants n).

Definition find_all_limit (names : list string) (limit : nat) (n : node)
  : list node :=
  firstn limit (find_all names n).

Definition find (nm : string) (n : node) : option node :=
  hd_error (find_all [nm] n).

(** The strings below a tag, in document order. *)
Fixpoint strings (n : node) : list string :=
  match n with
  | Text s => [s]
  | Tag _ ks => flat_map strings ks
  end.

(** [n.get_text(sep, strip=True)]: each string stripped, the empty ones
    dropped, the rest joined by [sep]. *)
Definition get_text (sep : string) (n : node) : string :=
  String.concat sep
    (filter (fun s => negb (String.eqb s EmptyString)) (map strip (strings n))).

End Html.

(** ** Cell values and records *)

Module Data.

(** What a cell of a frame can hold here: a string, [NaN] (a key absent
    from a mirror element), [None] (a JSON null), a timestamp or [NaT],
    a boolean. *)
Inductive value :=
| VStr (s : string)
| VNaN
| VNone
| VTime (t : option Z)
| VBool (b : bool).

Definition value_eqb (a b : value) : bool :=
  match a, b with
  | VStr s, VStr s' => String.eqb s s'
  | VNaN, VNaN => true
  | VNone, VNone => true
  | VTime None, VTime None => true
  | VTime (Some t), VTime (Some t') => Z.eqb t t'
  | VBool x, VBool y => Bool.eqb x y
  | _, _ => false
  end.

(** [isinstance(x, str)] *)
Definition is_str (v : value) : bool :=
  match v with VStr _ => true | _ => false end.

(** One row of the frame [_extract_from_html] builds from a table: the
    six picked texts. *)
Record raw := {
  raw_ticker : string;
  raw_name : string;
  raw_company : string;
  raw_type : string;
  raw_filing_date : string;
  raw_transaction_date : string
}.

(** One row of the cleaned frame.  [name] stays a dynamically typed cell
    because the aggregations test [isinstance(x, str)] on it. *)
Record record := {
  ticker : string;
  name : value;
  company : string;
  type : string;
  filing_date : option Z;
  transaction_date : option Z;
  is_buy : bool;
  is_sell : bool
}.

Definition option_Z_eqb (a b : option Z) : bool :=
  match a, b with
  | None, None => true
  | Some x, Some y => Z.eqb x y
  | _, _ => false
  end.

Definition record_eqb (a b : record) : bool :=
  String.eqb (ticker a) (ticker b) && value_eqb (name a) (name b) &&
  String.eqb (company a) (company b) && String.eqb (type a) (type b) &&
  option_Z_eqb (filing_date a) (filing_date b) &&
  option_Z_eqb (transaction_date a) (transaction_date b) &&
  Bool.eqb (is_buy a) (is_buy b) && Bool.eqb (is_sell a) (is_sell b).

(** [DataFrame.drop_duplicates()]: a row is kept unless an equal row was
    kept before it. *)
Definition drop_duplicates_by {A} (eqb : A -> A -> bool) (l : list A) : list A :=
  fold_left (fun kept r => if existsb (eqb r) kept then kept else (kept ++ [r])%list)
            l [].

(** [a == b] on lists of strings. *)
Fixpoint strings_eqb (a b : list string) : bool :=
  match a, b with
  | [], [] => true
  | x :: a', y :: b' => String.eqb x y && strings_eqb a' b'
  | _, _ => false
  end.

End Data.

(** ** Table extraction: [_extract_from_html] and the pagination loop *)

Module Extract.
Import Text Html Data.

(** Lines 51-55: the header texts of one table. *)
Definition header_texts (tbl : node) : list string :=
  let head := match find "thead" tbl with Some h => h | None => tbl end in
  let ths := map (get_text EmptyString) (find_all_limit ["th"; "td"] 20 head) in
  match ths with
  | _ :: _ => ths
  | [] =>
      match find "tr" tbl with
      | Some fr => map (get_text EmptyString) (find_all ["th"; "td"] fr)
      | None => []
      end
  end.

(** Lines 60-63: the texts of every row with more cells than the highest
    resolved index. *)
Definition body_rows (cmap : Header.header_map) (tbl : node)
  : list (list string) :=
  flat_map
    (fun tr =>
       let tds := find_all ["td"; "th"] tr in
       if Z.of_nat (List.length tds) <=? Header.max_index cmap then []
       else [map (get_text " ") tds])
    (find_all ["tr"] tbl).

(** Lines 64-65: a first row equal to the header up to case is dropped. *)
Definition drop_header_row (ths : list string) (rows : list (list string))
  : list (list string) :=
  match rows with
  | r0 :: rest =>
      if strings_eqb (map lower r0) (map lower ths) then rest else rows
  | [] => rows
  end.

(** [pick], on one row: [r[i]] when [0 <= i < len(r)], else the empty
    string. *)
Definition pick (cmap : Header.header_map) (k : Header.field)
    (r : list string) : string :=
  let i := Header.get cmap k in
  if (0 <=? i) && (i <? Z.of_nat (List.length r))
  then nth (Z.to_nat i) r EmptyString else EmptyString.

Definition raw_of_row (cmap : Header.header_map) (r : list string) : raw :=
  {| raw_ticker := pick cmap Header.ticker r;
     raw_name := pick cmap Header.name r;
     raw_company := pick cmap Header.company r;
     raw_type := pick cmap Header.type r;
     raw_filing_date := pick cmap Header.filing_date r;
     raw_transaction_date := pick cmap Header.transaction_date r |}.

(** The body of the loop over tables: [None] where the source says
    [continue], otherwise the frame appended to [frames]. *)
Definition table_frame (tbl : node) : option (list raw) :=
  match header_texts tbl with
  | [] => None
  | ths =>
      let cmap := Header._guess_header_map ths in
      if Header.lacks_required cmap then None
      else
        match drop_header_row ths (body_rows cmap tbl) with
        | [] => None
        | rows => Some (map (raw_of_row cmap) rows)
        end
  end.

(** [frames] after the loop over the given tables. *)
Definition frames_of (tables : list node) : list (list raw) :=
  flat_map (fun tbl => match table_frame tbl with
                       | Some df => [df]
                       | None => []
                       end) tables.

Section Cleaning.

(** [pd.to_datetime(column, errors="coerce")], on a whole column. *)
Variable to_datetime : list value -> list (option Z).

(** Row [i] of the frame next to entry [i] of the two parsed columns. *)
Fixpoint with_dates (df : list raw) (fd td : list (option Z))
  : list (raw * (option Z * option Z)) :=
  match df with
  | [] => []
  | r :: rest => (r, (hd None fd, hd None td)) :: with_dates rest (tl fd) (tl td)
  end.

(** Lines 81-85 on one row. *)
Definition clean_row (x : raw * (option Z * option Z)) : record :=
  let (r, d) := x in
  let ty := strip (raw_type r) in
  {| ticker := clean_ticker (raw_ticker r);
     name := VStr (strip (raw_name r));
     company := strip (raw_company r);
     type := ty;
     filing_date := fst d;
     transaction_date := snd d;
     is_buy := contains_any_ci ["buy"; "purchase"] ty;
     is_sell := contains_any_ci ["sell"; "sale"] ty |}.

(** Line 86: the ticker is not the empty string and the filing date is
    not missing. *)
Definition keep (r : record) : bool :=
  negb (String.eqb (ticker r) EmptyString) &&
  match filing_date r with Some _ => true | None => false end.

(** Lines 77-87, from the list of frames. *)
Definition clean_frames (frames : list (list raw)) : list record :=
  let df := List.concat frames in
  let fd := to_datetime (map (fun r => VStr (raw_filing_date r)) df) in
  let td := to_datetime (map (fun r => VStr (raw_transaction_date r)) df) in
  let df := map clean_row (with_dates df fd td) in
  drop_duplicates_by record_eqb (filter keep df).

(** The function on the tables of a document, and on the document. *)
Definition extract_tables (tables : list node) : list record :=
  clean_frames (frames_of tables).

Definition _extract_from_html (soup : node) : list record :=
  extract_tables (find_all ["table"] soup).

(** The [while visited < max_pages] loop of [scrape_smartinsider]: [more]
    turns are left; [pages] are the documents the successive clicks on
    "Next" show, the list ending where no such link is found. *)
Fixpoint next_pages (more : nat) (df : list record) (pages : list node)
  : list record :=
  match more, pages with
  | S k, p :: ps =>
      match _extract_from_html p with
      | [] => df
      | d2 => next_pages k (df ++ d2)%list ps
      end
  | _, _ => df
  end.

Definition scrape_smartinsider (max_pages : nat) (first : node)
    (pages : list node) : list record :=
  next_pages (max_pages - 1)%nat (_extract_from_html first) pages.

End Cleaning.

End Extract.

(** ** Frames with columns known only at run time *)

Module Frame.
Import Text Data.

(** The exceptions the fallback path can raise. *)
Inductive pyerr :=
| KeyError (c : string)
| ValueError
| AttributeError.

Definition result (A : Type) : Type := (pyerr + A)%type.

Definition ret {A} (x : A) : result A := inr x.

Definition bind {A B} (m : result A) (k : A -> result B) : result B :=
  match m with
  | inl e => inl e
  | inr x => k x
  end.

(** [for c in cs: df = step(df, c)], stopping at the first exception. *)
Fixpoint for_each {A C} (step : A -> C -> result A) (cs : list C) (a : A)
  : result A :=
  match cs with
  | [] => ret a
  | c :: r => bind (step a c) (for_each step r)
  end.

(** A frame: its column labels, which may repeat after a rename, and its
    rows, each as long as the list of labels. *)
Record frame := { columns : list string; rows : list (list value) }.

Definition empty : frame := {| columns := []; rows := [] |}.

(** One element of a mirror's array. *)
Definition jobj := list (string * value).

Fixpoint dict_get (d : jobj) (k : string) : option value :=
  match d with
  | [] => None
  | (k', v) :: r => if String.eqb k k' then Some v else dict_get r k
  end.

(** Labels in the order of their first appearance. *)
Definition add_label (cols : list string) (k : string) : list string :=
  if existsb (String.eqb k) cols then cols else (cols ++ [k])%list.

Definition labels (ks : list string) : list string :=
  fold_left add_label ks [].

(** The positions of label [c]. *)
Fixpoint positions_from (i : nat) (c : string) (cols : list string)
  : list nat :=
  match cols with
  | [] => []
  | c' :: r =>
      if String.eqb c c' then i :: positions_from (S i) c r
      else positions_from (S i) c r
  end.

Definition positions (c : string) (cols : list string) : list nat :=
  positions_from 0 c cols.

(** [pd.DataFrame(list_of_dicts)]: one column per key, [NaN] where an
    element lacks the key. *)
Definition DataFrame (ds : list jobj) : frame :=
  let cols := labels (flat_map (map fst) ds) in
  {| columns := cols;
     rows := map (fun d => map (fun c => match dict_get d c with
                                         | Some v => v
                                         | None => VNaN
                                         end) cols) ds |}.

(** The cell of [row] under label [c] in a frame with labels [cols];
    [NaN] when the frame has no such column. *)
Definition cell (cols : list string) (row : list value) (c : string) : value :=
  match positions c cols with
  | i :: _ => nth i row VNaN
  | [] => VNaN
  end.

(** [pd.concat(frames, ignore_index=True)]: the union of the columns,
    rows in order, [NaN] where a frame lacks a column. *)
Definition concat (frames : list frame) : frame :=
  let cols := labels (flat_map columns frames) in
  {| columns := cols;
     rows := flat_map (fun f => map (fun row => map (cell (columns f) row) cols)
                                    (rows f)) frames |}.

(** [df.rename(columns=mapping)] *)
Definition rename (mapping : list (string * string)) (df : frame) : frame :=
  {| columns := map (fun c => match find (fun kv => String.eqb c (fst kv)) mapping with
                              | Some kv => snd kv
                              | None => c
                              end) (columns df);
     rows := rows df |}.

(** What [df[c]] is: a Series when the label is unique, a DataFrame when
    it repeats. *)
Inductive selection :=
| Series (values : list value)
| SubFrame.

Definition getitem (df : frame) (c : string) : result selection :=
  match positions c (columns df) with
  | [] => inl (KeyError c)
  | [i] => ret (Series (map (fun row => nth i row VNaN) (rows df)))
  | _ => ret SubFrame
  end.

Fixpoint replace_nth (i : nat) (row : list value) (v : value) : list value :=
  match row, i with
  | [], _ => []
  | _ :: r, O => v :: r
  | x :: r, S j => x :: replace_nth j r v
  end.

(** Each row next to the entry of [col] at its index. *)
Fixpoint zip_rows (rs : list (list value)) (col : list value)
  : list (list value * value) :=
  match rs with
  | [] => []
  | r :: rest => (r, hd VNaN col) :: zip_rows rest (tl col)
  end.

(** [df[c] = col]: the column is replaced, or appended when new. *)
Definition setitem (df : frame) (c : string) (col : list value) : frame :=
  match positions c (columns df) with
  | [] => {| columns := (columns df ++ [c])%list;
             rows := map (fun rv => (fst rv ++ [snd rv])%list)
                         (zip_rows (rows df) col) |}
  | ps => {| columns := columns df;
             rows := map (fun rv => fold_left (fun row i => replace_nth i row (snd rv))
                                              ps (fst rv))
                         (zip_rows (rows df) col) |}
  end.

(** [x.isna()] on one cell. *)
Definition isna (v : value) : bool :=
  match v with
  | VNaN | VNone | VTime None => true
  | _ => false
  end.

(** [s.str.f()] on one cell: [NaN] on a cell that is no string. *)
Definition str_map (f : string -> string) (v : value) : value :=
  match v with
  | VStr s => VStr (f s)
  | _ => VNaN
  end.

(** [s.str.contains(r"a|b", case=False, na=False)] on one cell. *)
Definition str_contains (words : list string) (v : value) : value :=
  match v with
  | VStr s => VBool (contains_any_ci words s)
  | _ => VBool false
  end.

(** The [.str] accessor: only a Series has one. *)
Definition str_accessor (sel : selection) : result (list value) :=
  match sel with
  | Series l => ret l
  | SubFrame => inl AttributeError
  end.

(** [df[mask]] *)
Fixpoint select (mask : list bool) (rs : list (list value))
  : list (list value) :=
  match rs with
  | [] => []
  | r :: rest =>
      if hd false mask then r :: select (tl mask) rest
      else select (tl mask) rest
  end.

Fixpoint row_eqb (a b : list value) : bool :=
  match a, b with
  | [], [] => true
  | x :: a', y :: b' => value_eqb x y && row_eqb a' b'
  | _, _ => false
  end.

Fixpoint zip_and (a b : list bool) : list bool :=
  match a with
  | [] => []
  | x :: a' => (x && hd false b) :: zip_and a' (tl b)
  end.

End Frame.

(** ** The mirror fallback: [load_public_fallback] *)

Module Fallback.
Import Text Data Frame.

Notation "x <- m ;; k" := (bind m (fun x => k))
  (at level 61, m at next level, right associativity).

Section Fallback.

(** [pd.to_datetime(column, errors="coerce")], and how a timestamp
    prints. *)
Variable to_datetime : list value -> list (option Z).
Variable isoformat : Z -> string.

(** [str(x)], as [astype(str)] applies it. *)
Definition astype_str (v : value) : value :=
  VStr match v with
       | VStr s => s
       | VNaN => "nan"
       | VNone => "None"
       | VTime None => "NaT"
       | VTime (Some t) => isoformat t
       | VBool true => "True"
       | VBool false => "False"
       end.

(** [pd.to_datetime(df[c], errors="coerce")]: a frame cannot be
    assembled into dates without year, month and day columns. *)
Definition to_datetime_sel (sel : selection) : result (list value) :=
  match sel with
  | Series l => ret (map VTime (to_datetime l))
  | SubFrame => inl ValueError
  end.

(** [df[c].astype(str).str.f()] *)
Definition astype_str_then (f : string -> string) (sel : selection)
  : result (list value) :=
  l <- str_accessor (match sel with
                     | Series l => Series (map astype_str l)
                     | SubFrame => SubFrame
                     end) ;;
  ret (map (str_map f) l).

(** Line 138 for one label. *)
Definition parse_dates (df : frame) (c : string) : result frame :=
  sel <- getitem df c ;;
  col <- to_datetime_sel sel ;;
  ret (setitem df c col).

(** Line 140 for one label. *)
Definition strip_column (df : frame) (c : string) : result frame :=
  sel <- getitem df c ;;
  col <- astype_str_then strip sel ;;
  ret (setitem df c col).

(** [df[c].str.contains(...)] assigned to [df[target]]. *)
Definition flag_column (target : string) (words : list string) (df : frame)
  : result frame :=
  sel <- getitem df "type" ;;
  l <- str_accessor sel ;;
  ret (setitem df target (map (str_contains words) l)).

(** Line 143: the mask, the selection and [drop_duplicates]. *)
Definition keep_valid (df : frame) : result frame :=
  t <- getitem df "ticker" ;;
  f <- getitem df "filing_date" ;;
  match t, f with
  | Series tk, Series fd =>
      let mask := zip_and (map (fun v => negb (value_eqb v (VStr EmptyString))) tk)
                          (map (fun v => negb (isna v)) fd) in
      ret {| columns := columns df;
             rows := drop_duplicates_by row_eqb (select mask (rows df)) |}
  | _, _ => inl ValueError
  end.

Definition renames : list (string * string) :=
  [ ("transaction_date", "transaction_date");
    ("disclosure_date", "filing_date");
    ("senator", "name"); ("representative", "name");
    ("ticker", "ticker"); ("asset_description", "company");
    ("type", "type") ].

(** Lines 138-143, on the renamed frame. *)
Definition clean (df : frame) : result frame :=
  df <- for_each parse_dates ["filing_date"; "transaction_date"] df ;;
  sel <- getitem df "ticker" ;;
  col <- astype_str_then clean_ticker sel ;;
  let df := setitem df "ticker" col in
  df <- for_each strip_column ["name"; "company"; "type"] df ;;
  df <- flag_column "is_buy" ["buy"; "purchase"] df ;;
  df <- flag_column "is_sell" ["sell"; "sale"] df ;;
  keep_valid df.

(** [frames] after the loop over the mirrors: [responses] holds, for each
    mirror in order, the decoded array, or [None] when fetching it raised
    (the [except: pass]). *)
Definition fetched (responses : list (option (list jobj))) : list frame :=
  flat_map (fun r => match r with
                     | Some js => [DataFrame js]
                     | None => []
                     end) responses.

Definition load_public_fallback (responses : list (option (list jobj)))
  : result frame :=
  match fetched responses with
  | [] => ret empty
  | frames => clean (rename renames (concat frames))
  end.

End Fallback.

End Fallback.

(** ** Aggregation: [group_daily] and [trend_30d] *)

Module Aggregate.
Import Data.

(** A stable sort: [before a b] tells that [a] may stand before [b]. *)
Section Sort.
Context {A : Type} (before : A -> A -> bool).

Fixpoint insert_sorted (x : A) (l : list A) : list A :=
  match l with
  | [] => [x]
  | y :: r => if before x y then x :: l else y :: insert_sorted x r
  end.

Definition sort_by (l : list A) : list A := fold_right insert_sorted [] l.

End Sort.

(** [sorted(set(xs))] on strings. *)
Definition sorted_set (xs : list string) : list string :=
  sort_by String.leb (nodup string_dec xs).

(** [df["filing_date"] >= since]; a comparison with [NaT] is false. *)
Definition since_ok (since : Z) (r : record) : bool :=
  match filing_date r with
  | Some t => since <=? t
  | None => false
  end.

Definition isin (xs : list string) (s : string) : bool :=
  existsb (String.eqb s) xs.

(** Lines 147-149 (and 159-161): the rows in the window that pass the two
    ticker lists; an empty list, like [None], switches its filter off. *)
Definition window (df : list record) (since : Z)
    (whitelist blacklist : list string) : list record :=
  let d := filter (since_ok since) df in
  let d := match whitelist with
           | [] => d
           | _ => filter (fun r => isin whitelist (ticker r)) d
           end in
  match blacklist with
  | [] => d
  | _ => filter (fun r => negb (isin blacklist (ticker r))) d
  end.

(** [d.groupby("ticker")]: rows are collected under their key in the
    order of the frame, and the groups come out by ascending key. *)
Fixpoint add_to_group (k : string) (r : record)
    (groups : list (string * list record)) : list (string * list record) :=
  match groups with
  | [] => [(k, [r])]
  | (k', rs) :: g =>
      if String.eqb k k' then (k', (rs ++ [r])%list) :: g
      else (k', rs) :: add_to_group k r g
  end.

Definition collect (d : list record) : list (string * list record) :=
  fold_left (fun groups r => add_to_group (ticker r) r groups) d [].

Definition groupby (d : list record) : list (string * list record) :=
  sort_by (fun a b => String.leb (fst a) (fst b)) (collect d).

(** The aggregation lambda of lines 152 and 165. *)
Definition politicians_of (rs : list record) : list string :=
  sorted_set
    (flat_map (fun r => match name r with VStr s => [s] | _ => [] end) rs).

(** [("is_buy", "sum")] *)
Definition count (p : record -> bool) (rs : list record) : nat :=
  List.length (filter p rs).

(** A row of the frame [group_daily] returns. *)
Record daily_row := {
  d_ticker : string;
  trades : nat;
  politicians : list string;
  buys : nat;
  sells : nat;
  people : nat
}.

Definition daily_of (g : string * list record) : daily_row :=
  let (k, rs) := g in
  let names := politicians_of rs in
  {| d_ticker := k;
     trades := List.length rs;
     politicians := names;
     buys := count is_buy rs;
     sells := count is_sell rs;
     people := List.length names |}.

(** [sort_values(["people", "trades"], ascending=[False, False])] *)
Definition daily_before (a b : daily_row) : bool :=
  (people b <? people a)%nat ||
  (people a =? people b)%nat && (trades b <=? trades a)%nat.

Definition group_daily (df : list record) (since : Z)
    (whitelist blacklist : list string) : list record * list daily_row :=
  let d := window df since whitelist blacklist in
  (d, sort_by daily_before (map daily_of (groupby d))).

(** A row of the frame [trend_30d] returns. *)
Record trend_row := {
  t_ticker : string;
  t_buys : nat;
  t_sells : nat;
  t_politicians : list string;
  total_trades : nat
}.

Definition trend_of (g : string * list record) : trend_row :=
  let (k, rs) := g in
  {| t_ticker := k;
     t_buys := count is_buy rs;
     t_sells := count is_sell rs;
     t_politicians := politicians_of rs;
     total_trades := (count is_buy rs + count is_sell rs)%nat |}.

(** [sort_values(["buys", "total_trades"], ascending=[False, False])] *)
Definition trend_before (a b : trend_row) : bool :=
  (t_buys b <? t_buys a)%nat ||
  (t_buys a =? t_buys b)%nat && (total_trades b <=? total_trades a)%nat.

Definition trend_30d (df : list record) (since : Z)
    (whitelist blacklist : list string) : list record * list trend_row :=
  let t := window df since whitelist blacklist in
  (t, sort_by trend_before (map trend_of (groupby t))).

End Aggregate.

(** ** Sample inputs *)

Module Sample.
Import Data Html.

Definition digit_of (c : ascii) : option Z :=
  let n := nat_of_ascii c in
  if ((48 <=? n) && (n <=? 57))%nat then Some (Z.of_nat (n - 48)) else None.

Fixpoint digits_from (acc : Z) (s : string) : option Z :=
  match s with
  | EmptyString => Some acc
  | String c r =>
      match digit_of c with
      | Some d => digits_from (10 * acc + d) r
      | None => None
      end
  end.

(** A date parser for the samples: [YYYY-MM-DD] is read as the number
    [YYYYMMDD], anything else is [NaT]. *)
Definition iso_date (s : string) : option Z :=
  if ((String.length s =? 10)%nat
      && String.eqb (substring 4 1 s) "-" && String.eqb (substring 7 1 s) "-")
  then digits_from 0 (substring 0 4 s ++ substring 5 2 s ++ substring 8 2 s)
  else None.

Definition to_datetime (col : list value) : list (option Z) :=
  map (fun v => match v with VStr s => iso_date s | _ => None end) col.

(** How a timestamp prints; the samples never print one. *)
Definition isoformat (t : Z) : string := EmptyString.

(** Table builders. *)
Definition cells (tag : string) (texts : list string) : node :=
  Tag "tr" (map (fun t => Tag tag [Text t]) texts).

Definition table (headers : list string) (body : list (list string)) : node :=
  Tag "table" [ Tag "thead" [cells "th" headers];
                Tag "tbody" (map (cells "td") body) ].

(** The same table without a head section. *)
Definition plain_table (rows : list (list string)) : node :=
  Tag "table" (map (cells "td") rows).

(** A table without a name column, and a usable table that holds it in
    the last cell of its only data row. *)
Definition unusable_table : node :=
  table ["Ticker"; "Amount"; "Owner"; "Seen"]
        [["TSLA"; "1000"; "Self"; "2024-01-06"]].

Definition enclosing_table : node :=
  Tag "table"
    [ Tag "thead"
        [cells "th" ["Ticker"; "Politician"; "Type"; "Filing Date"; "Notes"]];
      Tag "tbody"
        [ Tag "tr"
            [ Tag "td" [Text "AAPL"]; Tag "td" [Text "Jane Doe"];
              Tag "td" [Text "Buy"]; Tag "td" [Text "2024-01-05"];
              Tag "td" [unusable_table] ] ] ].

Definition page (tables : list node) : node :=
  Tag "html" [Tag "body" tables].

(** A Senate element, and the same without its disclosure date. *)
Definition senate_element : Frame.jobj :=
  [ ("transaction_date", VStr "2024-01-02"); ("ticker", VStr "aapl");
    ("asset_description", VStr "Apple Inc"); ("type", VStr "Purchase");
    ("senator", VStr " Jane Doe "); ("disclosure_date", VStr "2024-01-05") ].

Definition undated_element : Frame.jobj :=
  [ ("transaction_date", VStr "2024-01-02"); ("ticker", VStr "aapl");
    ("asset_description", VStr "Apple Inc"); ("type", VStr "Purchase");
    ("senator", VStr " Jane Doe ") ].

Definition house_element : Frame.jobj :=
  [ ("disclosure_date", VStr "2024-01-06");
    ("transaction_date", VStr "2024-01-03"); ("ticker", VStr "MSFT");
    ("asset_description", VStr "Microsoft"); ("type", VStr "sale_full");
    ("representative", VStr "John Roe") ].

End Sample.

(** ** Reference definitions the theorems compare the code with *)

Module Reference.
Import Data.

(** The index, counted from [i], of the first normalised header that
    contains an alias of [k]; [-1] when there is none. *)
Fixpoint first_match_from (i : Z) (k : Header.field) (th : list string) : Z :=
  match th with
  | [] => -1
  | t :: r => if Header.any_key_in (Header.aliases k) t then i
              else first_match_from (i + 1) k r
  end.

(** The records of one ticker. *)
Definition with_ticker (k : string) (r : record) : bool :=
  String.eqb (ticker r) k.

(** The sorted distinct non-empty names of some records, as the
    description of [group_daily] words it. *)
Definition nonempty_names (rs : list record) : list string :=
  Aggregate.sorted_set
    (flat_map (fun r => match name r with
                        | VStr s => if String.eqb s EmptyString then [] else [s]
                        | _ => []
                        end) rs).

(** The header texts as the description of the extractor words them for a
    table without head section: the cells of the first row, at most 20. *)
Definition first_row_texts (tbl : Html.node) : list string :=
  match Html.find "tr" tbl with
  | Some fr => map (Html.get_text EmptyString)
                   (Html.find_all_limit ["th"; "td"] 20 fr)
  | None => []
  end.

(** A canonical record: non-empty ticker, filing date present. *)
Definition valid_record (r : record) : Prop :=
  ticker r <> EmptyString /\ filing_date r <> None.

(** The same on a row of a frame with labels [cols]. *)
Definition valid_row (cols : list string) (row : list value) : Prop :=
  (exists s, Frame.cell cols row "ticker" = VStr s /\ s <> EmptyString) /\
  (exists t, Frame.cell cols row "filing_date" = VTime (Some t)).

(** The labels the cleaning of the fallback frame reads. *)
Definition canonical_labels : list string :=
  ["filing_date"; "transaction_date"; "ticker"; "name"; "company"; "type"].

(** Each of them names exactly one column. *)
Definition ready (cols : list string) : Prop :=
  forall c, In c canonical_labels -> count_occ string_dec cols c = 1%nat.

(** All the elements the mirrors returned. *)
Definition elements (responses : list (option (list Frame.jobj)))
  : list Frame.jobj :=
  flat_map (fun r => match r with Some js => js | None => [] end) responses.

End Reference.

(** ** Invariants used in the proofs *)

Module Invariant.
Import Data Frame Aggregate Reference.

(** The groups built from the rows [l]: keys are distinct, each group
    holds exactly the rows of its key, in order, and no key is missing. *)
Record grouped (g : list (string * list record)) (l : list record) : Prop := {
  grouped_nodup : NoDup (map fst g);
  grouped_rows : forall k rs, In (k, rs) g ->
                   rs = filter (with_ticker k) l /\ rs <> [];
  grouped_keys : forall x, In x l -> In (ticker x) (map fst g)
}.

(** Every row is as long as the list of labels. *)
Definition well_formed (df : frame) : Prop :=
  Forall (fun row => List.length row = List.length (columns df)) (rows df).

(** The labels after [df[c] = col], and what the assignment does to
    one row. *)
Definition set_columns (cols : list string) (c : string) : list string :=
  match positions c cols with
  | [] => (cols ++ [c])%list
  | _ => cols
  end.

Definition set_cell (cols : list string) (c : string)
    (rv : list value * value) : list value :=
  match positions c cols with
  | [] => (fst rv ++ [snd rv])%list
  | ps => fold_left (fun row i => replace_nth i row (snd rv)) ps (fst rv)
  end.

(** Every cell under label [c] satisfies [Q]. *)
Definition col_all (Q : value -> Prop) (df : frame) (c : string) : Prop :=
  Forall (fun row => Q (cell (columns df) row c)) (rows df).

Definition is_text (v : value) : Prop := exists s, v = VStr s.
Definition is_time_or_nan (v : value) : Prop :=
  (exists t, v = VTime t) \/ v = VNaN.

(** The mask of line 143, on one row. *)
Definition row_kept (cols : list string) (row : list value) : bool :=
  negb (value_eqb (cell cols row "ticker") (VStr EmptyString)) &&
  negb (isna (cell cols row "filing_date")).


End Invariant.

(** ** Further reference definitions *)

Module Property.
Import Text Data.

(** A string of whitespace only. *)
Fixpoint blank (s : string) : bool :=
  match s with
  | EmptyString => true
  | String c r => is_space c && blank r
  end.

(** [h'] is [h] with the case of its letters changed at will and
    whitespace put around it. *)
Definition same_header (h h' : string) : Prop :=
  exists l m r,
    h' = (l ++ m ++ r)%string /\ blank l = true /\ blank r = true /\
    lower m = lower h.

(** Every character of [s] is in [A-Z.]. *)
Fixpoint all_AZdot (s : string) : bool :=
  match s with
  | EmptyString => true
  | String c r => is_AZdot c && all_AZdot r
  end.

(** The frames of the pages up to the first one without a record. *)
Fixpoint until_empty (dfs : list (list record)) : list (list record) :=
  match dfs with
  | [] => []
  | [] :: _ => []
  | df :: r => df :: until_empty r
  end.

(** The frame of [_extract_from_html] after lines 81-85, before the
    filter and the de-duplication. *)
Definition cleaned_rows (to_datetime : list value -> list (option Z))
    (frames : list (list raw)) : list record :=
  let df := List.concat frames in
  map Extract.clean_row
      (Extract.with_dates df
         (to_datetime (map (fun r => VStr (raw_filing_date r)) df))
         (to_datetime (map (fun r => VStr (raw_transaction_date r)) df))).

(** [to_datetime] parses each cell on its own. *)
Definition cellwise (to_datetime : list value -> list (option Z)) : Prop :=
  exists parse, forall col, to_datetime col = map parse col.

(** A cell holding a cleaned ticker, and one holding trimmed text. *)
Definition is_clean (v : value) : Prop :=
  exists s, v = VStr s /\ all_AZdot s = true.

Definition is_trimmed (v : value) : Prop :=
  exists s, v = VStr s /\ strip s = s.

(** The three tests of [window] on one record. *)
Definition in_window (since : Z) (whitelist blacklist : list string)
    (r : record) : bool :=
  Aggregate.since_ok since r &&
  match whitelist with
  | [] => true
  | _ => Aggregate.isin whitelist (ticker r)
  end &&
  match blacklist with
  | [] => true
  | _ => negb (Aggregate.isin blacklist (ticker r))
  end.

End Property.

(** ** Configuration read by [main] *)

Module Config.
Import Text.

(** [s.split(sep)] for a one-character separator. *)
Fixpoint split (sep : ascii) (s : string) : list string :=
  match s with
  | EmptyString => [EmptyString]
  | String c r =>
      if Ascii.eqb c sep then EmptyString :: split sep r
      else match split sep r with
           | w :: ws => String c w :: ws
           | [] => [String c EmptyString]
           end
  end.

(** Lines 203-204: [[t.strip().upper() for t in env.split(",")
    if t.strip()]], for the allow-list and the deny-list. *)
Definition ticker_list (env : string) : list string :=
  map (fun t => upper (strip t))
      (filter (fun t => negb (String.eqb (strip t) EmptyString))
              (split ","%char env)).

End Config.

(** ** The report: [render_md] *)

Module Report.
Import Aggregate.

(** The dash of the headings, U+2014, as its three UTF-8 bytes, and the
    line feed. *)
Definition em_dash : string :=
  String (ascii_of_nat 226) (String (ascii_of_nat 128)
    (String (ascii_of_nat 148) EmptyString)).

Definition nl : string := String (ascii_of_nat 10) EmptyString.

(** [str(int(n))] *)
Definition decimal (n : nat) : string :=
  DecimalString.NilEmpty.string_of_uint (Nat.to_uint n).

(** [", ".join(names)] *)
Definition names_of (politicians : list string) : string :=
  String.concat ", " politicians.

(** Line 180: the bullet of one row of the daily frame. *)
Definition daily_line (r : daily_row) : string :=
  "- **" ++ d_ticker r ++ "** " ++ em_dash ++ " " ++
  decimal (people r) ++ " people, " ++ decimal (trades r) ++
  " trades (buys: " ++ decimal (buys r) ++ ", sells: " ++
  decimal (sells r) ++ ") " ++ em_dash ++ " " ++ names_of (politicians r).

(** Line 190: the table line of one row of the trend frame, at rank [i]. *)
Definition trend_line (i : nat) (r : trend_row) : string :=
  "| " ++ decimal i ++ " | **" ++ t_ticker r ++ "** | " ++
  decimal (t_buys r) ++ " | " ++ decimal (t_sells r) ++ " | " ++
  decimal (total_trades r) ++ " | " ++ names_of (t_politicians r) ++ " |".

(** [enumerate(rows, start=i)] *)
Fixpoint enumerate {A} (i : nat) (rows : list A) : list (nat * A) :=
  match rows with
  | [] => []
  | r :: rest => (i, r) :: enumerate (S i) rest
  end.

Section Render.

(** Timestamps and [dt.strftime(format)]. *)
Variable datetime : Type.
Variable strftime : datetime -> string -> string.

Definition human (dt : datetime) : string := strftime dt "%Y-%m-%d %H:%M".

(** The three lines of lines 173, 174 and 182. *)
Definition title (now_dt : datetime) (tzname : string) : string :=
  "# Congressional Trades " ++ em_dash ++ " " ++
  strftime now_dt "%Y-%m-%d" ++ " (" ++ tzname ++ ")" ++ nl.

Definition daily_heading (daily_since : datetime) : string :=
  "## New Filings (since " ++ human daily_since ++ ")" ++ nl.

Definition trend_heading (trend_since : datetime) : string :=
  "## 30-Day Trend (since " ++ strftime trend_since "%Y-%m-%d" ++ ") " ++
  em_dash ++ " Ranked by Buys" ++ nl.

Definition no_daily : string := "No new filings in the period." ++ nl.
Definition no_trend : string := "No filings in the 30-day window." ++ nl.
Definition table_head : string :=
  "| Rank | Ticker | Buys | Sells | Total | Politicians |".
Definition table_rule : string := "|---:|:---:|---:|---:|---:|:--|".

(** [lines.append(x)] *)
Definition append (lines : list string) (x : string) : list string :=
  (lines ++ [x])%list.

(** [lines] at the end of [render_md]; each loop appends to the list. *)
Definition render_lines (now_dt : datetime) (tzname : string)
    (daily_since trend_since : datetime)
    (daily_agg : list daily_row) (trend_agg : list trend_row) : list string :=
  let lines := [title now_dt tzname] in
  let lines := append lines (daily_heading daily_since) in
  let lines :=
    match daily_agg with
    | [] => append lines no_daily
    | _ =>
        let lines :=
          fold_left (fun lines r => append lines (daily_line r))
                    daily_agg lines in
        append lines EmptyString
    end in
  let lines := append lines (trend_heading trend_since) in
  match trend_agg with
  | [] => append lines no_trend
  | _ =>
      let lines := append lines table_head in
      let lines := append lines table_rule in
      let lines :=
        fold_left (fun lines ir => append lines (trend_line (fst ir) (snd ir)))
                  (enumerate 1 trend_agg) lines in
      append lines EmptyString
  end.

Definition render_md (now_dt : datetime) (tzname : string)
    (daily_since trend_since : datetime)
    (daily_agg : list daily_row) (trend_agg : list trend_row) : string :=
  String.concat nl
    (render_lines now_dt tzname daily_since trend_since daily_agg trend_agg).

End Render.

End Report.
(** ** Ticker cleaning *)

Section TickerCleaning.
Import Text.

Lemma upper_char_AZdot c : is_AZdot c = true -> upper_char c = c.
Proof.
  unfold is_AZdot, upper_char, is_lower, is_upper.
  intros H.
  destruct ((97 <=? nat_of_ascii c) && (nat_of_ascii c <=? 122))%nat eqn:E;
    [ | reflexivity ].
  exfalso. apply andb_true_iff in E as [E1 E2].
  apply Nat.leb_le in E1. apply Nat.leb_le in E2.
  apply orb_true_iff in H as [H | H].
  - apply andb_true_iff in H as [_ H]. apply Nat.leb_le in H. lia.
  - apply Ascii.eqb_eq in H. subst c. change (97 <= 46)%nat in E1. lia.
Qed.

Lemma sfilter_all p s :
  sfilter p (sfilter p s) = sfilter p s.
Proof.
  induction s as [ | c r IH ]; simpl; [ reflexivity | ].
  destruct (p c) eqn:E; simpl; [ rewrite E, IH | ]; auto.
Qed.

Lemma upper_sfilter_AZdot s :
  upper (sfilter is_AZdot s) = sfilter is_AZdot s.
Proof.
  induction s as [ | c r IH ]; simpl; [ reflexivity | ].
  destruct (is_AZdot c) eqn:E; simpl; [ | exact IH ].
  unfold upper in *. simpl. rewrite IH, (upper_char_AZdot c E). reflexivity.
Qed.

(** Every character of a cleaned ticker is in [A-Z.]. *)
Lemma clean_ticker_chars s :
  Forall (fun c => is_AZdot c = true) (list_ascii_of_string (clean_ticker s)).
Proof.
  unfold clean_ticker. generalize (upper s) as u.
  induction u as [ | c r IH ]; simpl; [ constructor | ].
  destruct (is_AZdot c) eqn:E; simpl; auto.
Qed.

(** C7. Ticker cleaning (uppercase, then delete every character outside
    [A-Z.]) is idempotent on every string, and sends ["AAPL"] to
    ["AAPL"], ["aapl "] to ["AAPL"] and ["BRK.B!"] to ["BRK.B"]. *)
Theorem clean_ticker_idempotent :
  (forall s, clean_ticker (clean_ticker s) = clean_ticker s) /\
  clean_ticker "AAPL" = "AAPL" /\
  clean_ticker "aapl " = "AAPL" /\
  clean_ticker "BRK.B!" = "BRK.B".
Proof.
  split; [ | repeat split; reflexivity ].
  intros s. unfold clean_ticker at 1.
  unfold clean_ticker. rewrite upper_sfilter_AZdot. apply sfilter_all.
Qed.

End TickerCleaning.


(** ** Header resolution *)

Section HeaderResolution.
Import Text Header Reference.

Lemma field_eqb_spec a b : reflect (a = b) (field_eqb a b).
Proof. destruct a, b; simpl; constructor; congruence. Qed.

Lemma get_set_same out k v :
  In k (map fst out) -> get (set out k v) k = v.
Proof.
  induction out as [ | [k' v'] r IH ]; simpl; [ tauto | ].
  intros H. destruct (field_eqb_spec k k') as [ -> | Hne ].
  - simpl. destruct (field_eqb_spec k' k'); congruence.
  - simpl. destruct (field_eqb_spec k k'); [ congruence | ].
    apply IH. destruct H; congruence.
Qed.

Lemma get_set_other out k k' v :
  k' <> k -> get (set out k v) k' = get out k'.
Proof.
  intros Hne. induction out as [ | [k0 v0] r IH ]; simpl; [ reflexivity | ].
  destruct (field_eqb_spec k k0) as [ -> | Hk ]; simpl.
  - destruct (field_eqb_spec k' k0); congruence.
  - destruct (field_eqb_spec k' k0); congruence.
Qed.

Lemma set_keys out k v : map fst (set out k v) = map fst out.
Proof.
  induction out as [ | [k0 v0] r IH ]; simpl; [ reflexivity | ].
  destruct (field_eqb k k0); simpl; congruence.
Qed.

Lemma scan_field_keys i t out kv :
  map fst (scan_field i t out kv) = map fst out.
Proof.
  unfold scan_field. destruct kv as [k keys].
  destruct ((get out k =? -1) && any_key_in keys t); auto using set_keys.
Qed.

Lemma scan_fields_keys i t w out :
  map fst (fold_left (scan_field i t) w out) = map fst out.
Proof.
  revert out. induction w as [ | kv w IH ]; intros out; simpl; auto.
  rewrite IH. apply scan_field_keys.
Qed.

(** What one pass over the fields does to the entry of [k]. *)
Lemma scan_fields_get i t w : forall out k,
  NoDup (map fst w) ->
  (forall k', In k' (map fst w) -> In k' (map fst out)) ->
  get (fold_left (scan_field i t) w out) k =
  match find (fun kv => field_eqb k (fst kv)) w with
  | Some kv => if (get out k =? -1) && any_key_in (snd kv) t then i
               else get out k
  | None => get out k
  end.
Proof.
  induction w as [ | [k0 keys] w IH ]; intros out k Hnd Hin;
    cbn [fold_left find fst map] in *; [ reflexivity | ].
  inversion Hnd as [ | ? ? Hk0 Hnd' ]; subst.
  rewrite IH; auto.
  2:{ intros k' Hk'. rewrite scan_field_keys. apply Hin. now right. }
  destruct (field_eqb_spec k k0) as [ -> | Hne ].
  - destruct (find (fun kv => field_eqb k0 (fst kv)) w) as [ [k1 ks1] | ] eqn:F.
    + apply find_some in F as [F1 F2]. simpl in F2.
      destruct (field_eqb_spec k0 k1); [ subst | discriminate ].
      exfalso. apply Hk0. apply in_map_iff. now exists (k1, ks1).
    + unfold scan_field. cbn [snd].
      destruct ((get out k0 =? -1) && any_key_in keys t); auto.
      apply get_set_same. apply Hin. now left.
  - assert (E : get (scan_field i t out (k0, keys)) k = get out k).
    { unfold scan_field.
      destruct ((get out k0 =? -1) && any_key_in keys t); auto.
      now apply get_set_other. }
    now rewrite E.
Qed.

Lemma want_keys_nodup : NoDup (map fst want).
Proof.
  simpl. repeat constructor; simpl; intuition discriminate.
Qed.

Lemma scan_header_get out i t k :
  map fst out = map fst want ->
  get (scan_header out (i, t)) k =
  if (get out k =? -1) && any_key_in (aliases k) t then i else get out k.
Proof.
  intros Hk. unfold scan_header.
  rewrite scan_fields_get; [ | apply want_keys_nodup | now rewrite Hk ].
  unfold aliases.
  destruct (find (fun kv => field_eqb k (fst kv)) want); [ reflexivity | ].
  simpl. now rewrite andb_false_r.
Qed.

Lemma scan_header_keys out it : map fst (scan_header out it) = map fst out.
Proof. destruct it. apply scan_fields_keys. Qed.

Lemma scan_headers_resolved th : forall i out k,
  map fst out = map fst want -> get out k <> -1 ->
  get (fold_left scan_header (enumerate_from i th) out) k = get out k.
Proof.
  induction th as [ | t r IH ]; intros i out k Hk Hv;
    cbn [enumerate_from fold_left]; [ reflexivity | ].
  assert (E : get (scan_header out (i, t)) k = get out k).
  { rewrite scan_header_get by assumption.
    destruct (Z.eqb_spec (get out k) (-1)); [ contradiction | reflexivity ]. }
  rewrite IH; [ exact E | now rewrite scan_header_keys | now rewrite E ].
Qed.

Lemma scan_headers_first th : forall i out k,
  0 <= i -> map fst out = map fst want -> get out k = -1 ->
  get (fold_left scan_header (enumerate_from i th) out) k =
  first_match_from i k th.
Proof.
  induction th as [ | t r IH ]; intros i out k Hi Hk Hv;
    cbn [enumerate_from fold_left first_match_from]; [ exact Hv | ].
  assert (E : get (scan_header out (i, t)) k =
              if any_key_in (aliases k) t then i else -1).
  { rewrite scan_header_get by assumption. rewrite Hv. reflexivity. }
  destruct (any_key_in (aliases k) t).
  - rewrite scan_headers_resolved; [ exact E | now rewrite scan_header_keys | lia ].
  - apply IH; [ lia | now rewrite scan_header_keys | exact E ].
Qed.

Lemma guess_header_map_spec ths k :
  get (_guess_header_map ths) k = first_match_from 0 k (map normalise ths).
Proof.
  unfold _guess_header_map. apply scan_headers_first.
  - lia.
  - rewrite map_map. reflexivity.
  - destruct k; reflexivity.
Qed.

Lemma first_match_from_hit th : forall i k n h,
  nth_error th n = Some h -> any_key_in (aliases k) h = true ->
  (forall j h', (j < n)%nat -> nth_error th j = Some h' ->
                any_key_in (aliases k) h' = false) ->
  first_match_from i k th = i + Z.of_nat n.
Proof.
  induction th as [ | t r IH ]; intros i k n h Hn Hh Hlt.
  - destruct n; discriminate.
  - destruct n as [ | n ]; simpl in *.
    + injection Hn as ->. rewrite Hh. lia.
    + rewrite (Hlt 0%nat t) by (auto; lia).
      rewrite (IH (i + 1) k n h Hn Hh); [ lia | ].
      intros j h' Hj Hj'. apply (Hlt (S j)); [ lia | exact Hj' ].
Qed.

Lemma first_match_from_miss th : forall i k,
  (forall h, In h th -> any_key_in (aliases k) h = false) ->
  first_match_from i k th = -1.
Proof.
  induction th as [ | t r IH ]; intros i k H; simpl; [ reflexivity | ].
  rewrite (H t) by now left. apply IH. intros h Hh. apply H. now right.
Qed.

(** C2 (amended). Whatever the order, case and surrounding whitespace of
    the headers, each field is assigned the index of the first header
    whose normalised text contains one of the field's aliases, and stays
    unresolved when no header does. *)
Theorem guess_header_map_first_match ths k :
  (forall i h,
     nth_error ths i = Some h ->
     carries_alias k h = true ->
     (forall j h', (j < i)%nat -> nth_error ths j = Some h' ->
                   carries_alias k h' = false) ->
     get (_guess_header_map ths) k = Z.of_nat i) /\
  ((forall h, In h ths -> carries_alias k h = false) ->
   get (_guess_header_map ths) k = -1).
Proof.
  split.
  - intros i h Hi Hh Hlt. rewrite guess_header_map_spec.
    rewrite (first_match_from_hit _ 0 k i (normalise h)); [ lia | | exact Hh | ].
    + rewrite nth_error_map, Hi. reflexivity.
    + intros j h' Hj Hj'. rewrite nth_error_map in Hj'.
      destruct (nth_error ths j) as [ x | ] eqn:E; [ | discriminate ].
      injection Hj' as <-. exact (Hlt j x Hj E).
  - intros H. rewrite guess_header_map_spec. apply first_match_from_miss.
    intros h Hh. apply in_map_iff in Hh as [x [<- Hx]]. now apply H.
Qed.

Lemma guess_header_map_first_match_witness :
  get (_guess_header_map ["Symbol"; "Rep"; "  TRANS   Type "]) type = 2 /\
  get (_guess_header_map ["Symbol"; "Rep"; "  TRANS   Type "]) name = -1.
Proof.
  split.
  - apply (proj1 (guess_header_map_first_match _ type) 2%nat "  TRANS   Type ").
    + reflexivity.
    + reflexivity.
    + intros j h' Hj. destruct j as [ | [ | j ] ]; simpl.
      * intros [= <-]. reflexivity.
      * intros [= <-]. reflexivity.
      * lia.
  - apply (proj2 (guess_header_map_first_match _ name)).
    intros h [ <- | [ <- | [ <- | [] ] ] ]; reflexivity.
Defined.

(** C2 (as stated) fails on its own example: ["Rep"] contains none of the
    aliases of [name], so [name] is not resolved to column 1. *)
Lemma guess_header_map_rep_unresolved :
  let cmap := _guess_header_map ["Symbol"; "Rep"; "Trans Type"] in
  get cmap name = -1 /\
  ~ (get cmap ticker = 0 /\ get cmap name = 1 /\ get cmap type = 2).
Proof.
  split; [ reflexivity | ].
  intros [_ [H _]]. vm_compute in H. discriminate.
Qed.

(** First match wins: a "Company Name" column standing before the
    politician's column is taken for [name]. *)
Example guess_header_map_company_name :
  get (_guess_header_map ["Company Name"; "Ticker"; "Politician"; "Type"])
      name = 0.
Proof. reflexivity. Qed.

End HeaderResolution.

(** ** Sorting *)

Section SortFacts.
Import Aggregate.
Context {A : Type} (before : A -> A -> bool).

Lemma insert_sorted_perm x l :
  Permutation (insert_sorted before x l) (x :: l).
Proof.
  induction l as [ | y r IH ]; simpl; [ reflexivity | ].
  destruct (before x y); [ reflexivity | ].
  rewrite IH. apply perm_swap.
Qed.

Lemma sort_by_perm l : Permutation (sort_by before l) l.
Proof.
  induction l as [ | x r IH ]; simpl; [ reflexivity | ].
  rewrite insert_sorted_perm. now apply perm_skip.
Qed.

Lemma sort_by_In l x : In x (sort_by before l) <-> In x l.
Proof.
  split; apply Permutation_in;
    [ apply sort_by_perm | symmetry; apply sort_by_perm ].
Qed.

Hypothesis before_total : forall a b, before a b = false -> before b a = true.

Lemma insert_sorted_hd x y l :
  before y x = true -> HdRel (fun a b => before a b = true) y l ->
  HdRel (fun a b => before a b = true) y (insert_sorted before x l).
Proof.
  intros Hyx H. destruct l as [ | z r ]; simpl.
  - now constructor.
  - destruct (before x z); constructor; auto. now inversion H.
Qed.

Lemma insert_sorted_sorted x l :
  Sorted (fun a b => before a b = true) l ->
  Sorted (fun a b => before a b = true) (insert_sorted before x l).
Proof.
  induction 1 as [ | y r Hs IH Hhd ]; simpl.
  - repeat constructor.
  - destruct (before x y) eqn:E.
    + constructor; [ now constructor | now constructor ].
    + constructor; [ exact IH | ].
      apply insert_sorted_hd; [ now apply before_total | exact Hhd ].
Qed.

Lemma sort_by_sorted l :
  Sorted (fun a b => before a b = true) (sort_by before l).
Proof.
  induction l as [ | x r IH ]; simpl; [ constructor | ].
  now apply insert_sorted_sorted.
Qed.

End SortFacts.

Lemma Sorted_weaken {A} (R S : A -> A -> Prop) l :
  (forall a b, R a b -> S a b) -> Sorted R l -> Sorted S l.
Proof.
  intros H. induction 1 as [ | x r Hs IH Hhd ]; constructor; auto.
  destruct Hhd; constructor; auto.
Qed.

(** ** Grouping *)

Section Grouping.
Import Data Aggregate Reference Invariant.

Lemma existsb_eqb_In k ks : existsb (String.eqb k) ks = true <-> In k ks.
Proof.
  rewrite existsb_exists. split.
  - intros [x [Hx E]]. apply String.eqb_eq in E. now subst.
  - intros H. exists k. split; [ exact H | apply String.eqb_refl ].
Qed.

Lemma add_to_group_keys k r g :
  map fst (add_to_group k r g) =
  if existsb (String.eqb k) (map fst g) then map fst g
  else (map fst g ++ [k])%list.
Proof.
  induction g as [ | [k' rs] g IH ]; simpl; [ reflexivity | ].
  destruct (String.eqb k k'); simpl; [ reflexivity | ].
  rewrite IH. now destruct (existsb (String.eqb k) (map fst g)).
Qed.

Lemma filter_with_ticker_snoc k l r :
  filter (with_ticker k) (l ++ [r]) =
  (filter (with_ticker k) l ++ if with_ticker k r then [r] else [])%list.
Proof. rewrite filter_app. reflexivity. Qed.

Lemma add_to_group_rows r l : forall g,
  NoDup (map fst g) ->
  (forall k rs, In (k, rs) g -> rs = filter (with_ticker k) l /\ rs <> []) ->
  (~ In (ticker r) (map fst g) -> filter (with_ticker (ticker r)) l = []) ->
  forall k rs, In (k, rs) (add_to_group (ticker r) r g) ->
    rs = filter (with_ticker k) (l ++ [r]) /\ rs <> [].
Proof.
  assert (Hother : forall k rs, k <> ticker r ->
            rs = filter (with_ticker k) l /\ rs <> [] ->
            rs = filter (with_ticker k) (l ++ [r]) /\ rs <> []).
  { intros k rs Hk [E Hne]. split; [ | exact Hne ].
    rewrite filter_with_ticker_snoc. unfold with_ticker at 2.
    destruct (String.eqb_spec (ticker r) k); [ congruence | ].
    now rewrite app_nil_r. }
  induction g as [ | [k' rs'] g IH ]; intros Hnd Hrows Hnew k rs; simpl.
  - intros [ [= <- <-] | [] ].
    rewrite filter_with_ticker_snoc, Hnew by auto.
    unfold with_ticker. rewrite String.eqb_refl. split; [ reflexivity | discriminate ].
  - inversion Hnd as [ | ? ? Hk' Hnd' ]; subst.
    destruct (String.eqb_spec (ticker r) k') as [ E | Hne ]; simpl.
    + intros [ [= <- <-] | H ].
      * destruct (Hrows k' rs' (or_introl eq_refl)) as [E' _].
        rewrite filter_with_ticker_snoc. unfold with_ticker at 2.
        rewrite E, String.eqb_refl, <- E'.
        split; [ reflexivity | now destruct rs' ].
      * apply Hother; [ | apply Hrows; now right ].
        intros ->. apply Hk'. rewrite <- E. apply in_map_iff.
        now exists (ticker r, rs).
    + intros [ [= <- <-] | H ].
      * apply Hother; [ congruence | apply Hrows; now left ].
      * apply IH; auto.
        -- intros k0 rs0 H0. apply Hrows. now right.
        -- intros Hn. apply Hnew. simpl. intros [ | ]; [ congruence | tauto ].
Qed.

Lemma filter_none {A} (p : A -> bool) l :
  (forall x, In x l -> p x = false) -> filter p l = [].
Proof.
  induction l as [ | x l IH ]; intros H; simpl; [ reflexivity | ].
  rewrite (H x) by now left. apply IH. intros y Hy. apply H. now right.
Qed.

Lemma add_to_group_grouped g l r :
  grouped g l -> grouped (add_to_group (ticker r) r g) (l ++ [r]).
Proof.
  intros [Hnd Hrows Hkeys].
  assert (Hnew : ~ In (ticker r) (map fst g) ->
                 filter (with_ticker (ticker r)) l = []).
  { intros Hn. apply filter_none. intros x Hx. unfold with_ticker.
    destruct (String.eqb_spec (ticker x) (ticker r)) as [E | ]; [ | reflexivity ].
    exfalso. apply Hn. rewrite <- E. now apply Hkeys. }
  constructor.
  - rewrite add_to_group_keys.
    destruct (existsb (String.eqb (ticker r)) (map fst g)) eqn:E; [ exact Hnd | ].
    apply NoDup_app; [ exact Hnd | repeat constructor; simpl; tauto | ].
    intros x Hx [ <- | [] ]. apply existsb_eqb_In in Hx. congruence.
  - now apply add_to_group_rows.
  - intros x Hx. rewrite add_to_group_keys.
    destruct (existsb (String.eqb (ticker r)) (map fst g)) eqn:E.
    + apply in_app_or in Hx as [Hx | [ <- | [] ]]; [ now apply Hkeys | ].
      now apply existsb_eqb_In.
    + apply in_or_app.
      apply in_app_or in Hx as [Hx | [ <- | [] ]]; [ left; now apply Hkeys | ].
      right. now left.
Qed.

Lemma collect_grouped_from d : forall g l,
  grouped g l ->
  grouped (fold_left (fun groups r => add_to_group (ticker r) r groups) d g)
          (l ++ d).
Proof.
  induction d as [ | r d IH ]; intros g l H; simpl.
  - now rewrite app_nil_r.
  - replace (l ++ r :: d)%list with ((l ++ [r]) ++ d)%list
      by (rewrite <- app_assoc; reflexivity).
    apply IH. now apply add_to_group_grouped.
Qed.

Lemma collect_grouped d : grouped (collect d) d.
Proof.
  apply (collect_grouped_from d [] []).
  constructor; simpl; [ constructor | tauto | tauto ].
Qed.

(** Every group of [groupby] holds the rows of its key, and at least one. *)
Lemma groupby_rows d k rs :
  In (k, rs) (groupby d) -> rs = filter (with_ticker k) d /\ rs <> [].
Proof.
  unfold groupby. rewrite sort_by_In. apply (grouped_rows _ _ (collect_grouped d)).
Qed.

End Grouping.

(** ** The two aggregations *)

Section Aggregations.
Import Data Aggregate Reference Invariant.

Lemma sorted_set_In xs s : In s (sorted_set xs) <-> In s xs.
Proof. unfold sorted_set. rewrite sort_by_In. apply nodup_In. Qed.

Lemma sorted_set_NoDup xs : NoDup (sorted_set xs).
Proof.
  unfold sorted_set.
  apply (Permutation_NoDup (l := nodup string_dec xs));
    [ symmetry; apply sort_by_perm | apply NoDup_nodup ].
Qed.

Lemma sorted_set_sorted xs :
  Sorted (fun a b => String.leb a b = true) (sorted_set xs).
Proof.
  apply sort_by_sorted. intros a b H.
  destruct (String.leb_total a b) as [E | E]; congruence.
Qed.

Lemma nodup_length {A} (dec : forall x y : A, {x = y} + {x <> y}) l :
  (List.length (nodup dec l) <= List.length l)%nat.
Proof.
  induction l as [ | x l IH ]; simpl; [ lia | ].
  destruct (in_dec dec x l); simpl; lia.
Qed.

Lemma sorted_set_length xs :
  (List.length (sorted_set xs) <= List.length xs)%nat.
Proof.
  unfold sorted_set. rewrite (Permutation_length (sort_by_perm _ _)).
  apply nodup_length.
Qed.

Lemma str_names_length rs :
  (List.length (flat_map (fun r => match name r with
                                   | VStr s => [s]
                                   | _ => []
                                   end) rs) <= List.length rs)%nat.
Proof.
  induction rs as [ | r rs IH ]; simpl; [ lia | ].
  rewrite length_app. destruct (name r); simpl; lia.
Qed.

Lemma politicians_of_In rs s :
  In s (politicians_of rs) <-> exists r, In r rs /\ name r = VStr s.
Proof.
  unfold politicians_of. rewrite sorted_set_In, in_flat_map. split.
  - intros [r [Hr Hs]]. exists r. split; [ exact Hr | ].
    destruct (name r); simpl in Hs; try tauto.
    destruct Hs as [ -> | [] ]. reflexivity.
  - intros [r [Hr E]]. exists r. split; [ exact Hr | ].
    rewrite E. now left.
Qed.

(** Which rows [window] keeps. *)
Lemma window_In df since wl bl r :
  In r (window df since wl bl) <->
  In r df /\
  (exists t, filing_date r = Some t /\ since <= t) /\
  (wl = [] \/ In (ticker r) wl) /\
  ~ In (ticker r) bl.
Proof.
  assert (Hs : since_ok since r = true <->
               exists t, filing_date r = Some t /\ since <= t).
  { unfold since_ok. destruct (filing_date r) as [t | ].
    - rewrite Z.leb_le. split; [ intros H; now exists t | ].
      intros [t' [[= <-] H]]. exact H.
    - split; [ discriminate | intros [t' [E _]]; discriminate ]. }
  assert (Hi : forall xs, isin xs (ticker r) = true <-> In (ticker r) xs).
  { intros xs. apply existsb_eqb_In. }
  unfold window.
  destruct wl as [ | w wl ]; destruct bl as [ | b bl ];
    repeat rewrite filter_In; rewrite ?negb_true_iff, <- ?not_true_iff_false,
      ?Hi, Hs.
  - simpl. tauto.
  - intuition congruence.
  - simpl. intuition congruence.
  - intuition congruence.
Qed.

(** Each row of either result comes from one group of the window. *)
Lemma group_daily_row_inv df since wl bl row :
  In row (snd (group_daily df since wl bl)) ->
  exists rs,
    rs = filter (with_ticker (d_ticker row)) (window df since wl bl) /\
    rs <> [] /\ row = daily_of (d_ticker row, rs).
Proof.
  unfold group_daily. cbn [snd]. rewrite sort_by_In, in_map_iff.
  intros [[k rs] [<- Hg]]. apply groupby_rows in Hg as [E Hne].
  exists rs. simpl. auto.
Qed.

Lemma trend_30d_row_inv df since wl bl row :
  In row (snd (trend_30d df since wl bl)) ->
  exists rs,
    rs = filter (with_ticker (t_ticker row)) (window df since wl bl) /\
    rs <> [] /\ row = trend_of (t_ticker row, rs).
Proof.
  unfold trend_30d. cbn [snd]. rewrite sort_by_In, in_map_iff.
  intros [[k rs] [<- Hg]]. apply groupby_rows in Hg as [E Hne].
  exists rs. simpl. auto.
Qed.

(** C1 (amended). In every row of the [group_daily] result, [politicians]
    is the sorted list, without repetition, of the string-valued names
    (the empty string being one) of that ticker's records in the
    filtered window, [people] is its length, [trades] the number of those
    records, and [buys] and [sells] the numbers of them with [is_buy] and
    [is_sell] true. *)
Theorem group_daily_rows df since wl bl :
  Forall
    (fun row =>
       let recs := filter (with_ticker (d_ticker row))
                          (window df since wl bl) in
       Sorted (fun a b => String.leb a b = true) (politicians row) /\
       NoDup (politicians row) /\
       (forall s, In s (politicians row) <->
                  exists r, In r recs /\ name r = VStr s) /\
       people row = List.length (politicians row) /\
       trades row = List.length recs /\
       buys row = List.length (filter is_buy recs) /\
       sells row = List.length (filter is_sell recs))
    (snd (group_daily df since wl bl)).
Proof.
  apply Forall_forall. intros row Hrow.
  destruct (group_daily_row_inv _ _ _ _ _ Hrow) as [rs [E [_ Hr]]].
  cbv zeta. rewrite <- E. rewrite Hr. cbn.
  repeat split.
  - apply sorted_set_sorted.
  - apply sorted_set_NoDup.
  - apply politicians_of_In.
  - apply politicians_of_In.
Qed.

(** C10. Every row of the [group_daily] result has [buys <= trades],
    [sells <= trades], [people <= trades] and [trades >= 1]. *)
Theorem group_daily_counts df since wl bl :
  Forall
    (fun row => (buys row <= trades row /\ sells row <= trades row /\
                 people row <= trades row /\ 1 <= trades row)%nat)
    (snd (group_daily df since wl bl)).
Proof.
  apply Forall_forall. intros row Hrow.
  destruct (group_daily_row_inv _ _ _ _ _ Hrow) as [rs [_ [Hne Hr]]].
  rewrite Hr. cbn. unfold count. repeat split.
  - apply filter_length_le.
  - apply filter_length_le.
  - unfold politicians_of. etransitivity; [ apply sorted_set_length | ].
    apply str_names_length.
  - destruct rs; [ congruence | simpl; lia ].
Qed.

(** C4. The [group_daily] result is sorted: in any two adjacent rows
    [people] does not increase, and where it is equal [trades] does not
    increase. *)
Theorem group_daily_sorted df since wl bl :
  Sorted
    (fun a b => (people b <= people a)%nat /\
                (people a = people b -> (trades b <= trades a)%nat))
    (snd (group_daily df since wl bl)).
Proof.
  unfold group_daily. cbn [snd].
  apply (Sorted_weaken (fun a b => daily_before a b = true)).
  - unfold daily_before. intros a b H.
    apply orb_true_iff in H as [H | H].
    + apply Nat.ltb_lt in H. lia.
    + apply andb_true_iff in H as [H1 H2].
      apply Nat.eqb_eq in H1. apply Nat.leb_le in H2. lia.
  - apply sort_by_sorted. unfold daily_before. intros a b H.
    apply orb_false_iff in H as [H1 H2]. apply Nat.ltb_ge in H1.
    apply andb_false_iff in H2.
    destruct (Nat.eqb_spec (people a) (people b)) as [E | Hne].
    + destruct H2 as [H2 | H2]; [ discriminate | ].
      apply Nat.leb_gt in H2. rewrite E, Nat.eqb_refl.
      apply orb_true_iff. right. apply Nat.leb_le. lia.
    + apply orb_true_iff. left. apply Nat.ltb_lt. lia.
Qed.

(** C5. Every row of the [trend_30d] result has [total_trades] equal to
    buys plus sells, and the result is sorted: in any two adjacent rows
    buys does not increase, and where it is equal the total does not
    increase. *)
Theorem trend_30d_total_sorted df since wl bl :
  Forall (fun row => total_trades row = (t_buys row + t_sells row)%nat)
         (snd (trend_30d df since wl bl)) /\
  Sorted
    (fun a b => (t_buys b <= t_buys a)%nat /\
                (t_buys a = t_buys b ->
                 (total_trades b <= total_trades a)%nat))
    (snd (trend_30d df since wl bl)).
Proof.
  split.
  - apply Forall_forall. intros row Hrow.
    destruct (trend_30d_row_inv _ _ _ _ _ Hrow) as [rs [_ [_ Hr]]].
    rewrite Hr. reflexivity.
  - unfold trend_30d. cbn [snd].
    apply (Sorted_weaken (fun a b => trend_before a b = true)).
    + unfold trend_before. intros a b H.
      apply orb_true_iff in H as [H | H].
      * apply Nat.ltb_lt in H. lia.
      * apply andb_true_iff in H as [H1 H2].
        apply Nat.eqb_eq in H1. apply Nat.leb_le in H2. lia.
    + apply sort_by_sorted. unfold trend_before. intros a b H.
      apply orb_false_iff in H as [H1 H2]. apply Nat.ltb_ge in H1.
      apply andb_false_iff in H2.
      destruct (Nat.eqb_spec (t_buys a) (t_buys b)) as [E | Hne].
      * destruct H2 as [H2 | H2]; [ discriminate | ].
        apply Nat.leb_gt in H2. rewrite E, Nat.eqb_refl.
        apply orb_true_iff. right. apply Nat.leb_le. lia.
      * apply orb_true_iff. left. apply Nat.ltb_lt. lia.
Qed.

End Aggregations.

(** ** Table extraction *)

Section Extraction.
Import Text Html Data Extract Reference.

Lemma descendants_trans n : forall x y,
  In x (descendants n) -> In y (descendants x) -> In y (descendants n).
Proof.
  induction n as [ s | nm ks IH ] using node_induction; intros x y Hx Hy.
  - destruct Hx.
  - simpl in *. apply in_flat_map in Hx as [k [Hk Hx]].
    apply in_flat_map. exists k. split; [ exact Hk | ].
    destruct Hx as [ -> | Hx ]; [ now right | ].
    right. rewrite Forall_forall in IH. exact (IH k Hk x y Hx Hy).
Qed.

Lemma find_descendant nm n x : find nm n = Some x -> In x (descendants n).
Proof.
  unfold find, find_all. intros H.
  assert (Hin : In x (filter (is_named [nm]) (descendants n))).
  { destruct (filter (is_named [nm]) (descendants n)); [ discriminate | ].
    injection H as ->. now left. }
  now apply filter_In in Hin.
Qed.

(** What is found below a descendant is found below the node itself. *)
Lemma find_all_below names n x :
  In x (descendants n) -> incl (find_all names x) (find_all names n).
Proof.
  intros Hx y Hy. unfold find_all in *.
  apply filter_In in Hy as [Hy Hp]. apply filter_In. split; [ | exact Hp ].
  exact (descendants_trans n x y Hx Hy).
Qed.

Lemma map_eq_nil_iff {A B} (f : A -> B) l : map f l = [] <-> l = [].
Proof. destruct l; simpl; split; congruence. Qed.

Lemma firstn_eq_nil {A} (l : list A) n : firstn (S n) l = [] -> l = [].
Proof. destruct l; simpl; congruence. Qed.

(** C8 (amended). The header texts of a table are the texts of the first
    at most 20 [th]/[td] cells of its head section when it has one with
    cells, and of the first at most 20 cells of the whole table, in
    document order, when it has no head section; a table that yields no
    header text is skipped. *)
Theorem header_texts_cases tbl :
  (forall h, find "thead" tbl = Some h -> find_all ["th"; "td"] h <> [] ->
     header_texts tbl = map (get_text EmptyString) (firstn 20 (find_all ["th"; "td"] h))
     /\ (List.length (header_texts tbl) <= 20)%nat) /\
  (find "thead" tbl = None ->
     header_texts tbl =
       map (get_text EmptyString) (firstn 20 (find_all ["th"; "td"] tbl))
     /\ (List.length (header_texts tbl) <= 20)%nat) /\
  (header_texts tbl = [] -> table_frame tbl = None).
Proof.
  assert (Hcap : forall l : list node,
            (List.length (map (get_text EmptyString) (firstn 20 l)) <= 20)%nat).
  { intros l. rewrite length_map. apply firstn_le_length. }
  assert (Hsome : forall h,
            find "thead" tbl = Some h -> find_all ["th"; "td"] h <> [] ->
            header_texts tbl
            = map (get_text EmptyString) (firstn 20 (find_all ["th"; "td"] h))).
  { intros h Hh Hcells. unfold header_texts, find_all_limit. rewrite Hh.
    destruct (map (get_text EmptyString) (firstn 20 (find_all ["th"; "td"] h)))
      eqn:E; [ | reflexivity ].
    apply map_eq_nil_iff, firstn_eq_nil in E. contradiction. }
  assert (Hnone : find "thead" tbl = None ->
            header_texts tbl
            = map (get_text EmptyString) (firstn 20 (find_all ["th"; "td"] tbl))).
  { intros Hh. unfold header_texts, find_all_limit. rewrite Hh.
    destruct (map (get_text EmptyString) (firstn 20 (find_all ["th"; "td"] tbl)))
      eqn:E; [ | reflexivity ].
    apply map_eq_nil_iff, firstn_eq_nil in E.
    destruct (find "tr" tbl) as [fr | ] eqn:F; [ | reflexivity ].
    apply map_eq_nil_iff. apply incl_l_nil. rewrite <- E.
    apply find_all_below. exact (find_descendant _ _ _ F). }
  split; [ | split ].
  - intros h Hh Hcells. rewrite (Hsome h Hh Hcells). split; [ reflexivity | apply Hcap ].
  - intros Hh. rewrite (Hnone Hh). split; [ reflexivity | apply Hcap ].
  - intros E. unfold table_frame. rewrite E. reflexivity.
Qed.

(** A head section without cells sends the extractor to the first row of
    the table, whose cells are then all taken. *)
Lemma header_texts_empty_head tbl h :
  find "thead" tbl = Some h -> find_all ["th"; "td"] h = [] ->
  header_texts tbl =
    match find "tr" tbl with
    | Some fr => map (get_text EmptyString) (find_all ["th"; "td"] fr)
    | None => []
    end.
Proof.
  intros Hh E. unfold header_texts, find_all_limit. rewrite Hh, E. reflexivity.
Qed.

Lemma header_texts_cases_witness :
  header_texts (Sample.table ["Ticker"; "Name"; "Type"]
                             [["AAPL"; "Jane"; "Buy"]])
  = ["Ticker"; "Name"; "Type"].
Proof.
  pose (tbl := Sample.table ["Ticker"; "Name"; "Type"]
                            [["AAPL"; "Jane"; "Buy"]]).
  destruct (header_texts_cases tbl) as [Hhead _].
  destruct (Hhead (Tag "thead" [Sample.cells "th" ["Ticker"; "Name"; "Type"]]))
    as [E _]; [ reflexivity | discriminate | ].
  exact E.
Defined.

(** C8 (as stated) fails without a head section: the header texts then
    run past the first row; and it fails on the cap when the head
    section has no cells: all 21 cells of the first row are taken. *)
Lemma header_texts_not_first_row :
  let tbl := Sample.plain_table [["Ticker"; "Name"; "Type"];
                                 ["AAPL"; "Jane"; "Buy"]] in
  let wide := Tag "table"
                [ Tag "thead" [];
                  Sample.cells "td" (repeat "Ticker" 21) ] in
  find "thead" tbl = None /\
  first_row_texts tbl = ["Ticker"; "Name"; "Type"] /\
  header_texts tbl = ["Ticker"; "Name"; "Type"; "AAPL"; "Jane"; "Buy"] /\
  List.length (header_texts wide) = 21%nat.
Proof. repeat split. Qed.

Lemma frames_of_app a b :
  frames_of (a ++ b) = (frames_of a ++ frames_of b)%list.
Proof. unfold frames_of. apply flat_map_app. Qed.

(** C6 (amended). A table whose header map lacks [ticker], [name] or
    [type] adds no frame of its own: the output for the document is the
    output computed from the other tables [find_all("table")] returns.
    Rows of such a table standing inside a usable table are still read
    as rows of that table. *)
Theorem table_without_required_fields to_datetime soup before bad after :
  find_all ["table"] soup = (before ++ bad :: after)%list ->
  Header.lacks_required (Header._guess_header_map (header_texts bad)) = true ->
  table_frame bad = None /\
  frames_of (before ++ bad :: after)
    = (frames_of before ++ frames_of after)%list /\
  _extract_from_html to_datetime soup
    = extract_tables to_datetime (before ++ after).
Proof.
  intros Htables Hbad.
  assert (Hnone : table_frame bad = None).
  { unfold table_frame. destruct (header_texts bad); [ reflexivity | ].
    now rewrite Hbad. }
  assert (Hframes : frames_of (before ++ bad :: after)
                    = (frames_of before ++ frames_of after)%list).
  { rewrite !frames_of_app. f_equal.
    change (bad :: after) with ([bad] ++ after)%list.
    rewrite frames_of_app. unfold frames_of at 1. simpl.
    now rewrite Hnone. }
  repeat split; auto.
  unfold _extract_from_html, extract_tables.
  now rewrite Htables, Hframes, frames_of_app.
Qed.

Lemma table_without_required_fields_witness :
  let bad := Sample.table ["Ticker"; "Amount"] [["TSLA"; "1000"]] in
  let good := Sample.table ["Ticker"; "Politician"; "Type"; "Filing Date"]
                           [["AAPL"; "Jane Doe"; "Buy"; "2024-01-05"]] in
  table_frame bad = None /\
  map ticker (_extract_from_html Sample.to_datetime (Sample.page [bad; good]))
    = ["AAPL"].
Proof.
  intros bad good.
  destruct (table_without_required_fields Sample.to_datetime
              (Sample.page [bad; good]) [] bad [good]) as [H1 [_ H3]];
    [ reflexivity | reflexivity | ].
  split; [ exact H1 | ]. rewrite H3. reflexivity.
Defined.

(** C6 (as stated) fails for a table nested in a usable one: the inner
    table lacks a name column and is skipped, yet its data row is among
    the [tr] found below the outer table and comes out as a record. *)
Lemma nested_table_rows_come_out :
  let doc := Sample.page [Sample.enclosing_table] in
  find_all ["table"] doc = [Sample.enclosing_table; Sample.unusable_table] /\
  Header.lacks_required
    (Header._guess_header_map (header_texts Sample.unusable_table)) = true /\
  table_frame Sample.unusable_table = None /\
  map (fun r => (ticker r, (name r, (type r, filing_date r))))
      (_extract_from_html Sample.to_datetime doc)
  = [ ("AAPL", (VStr "Jane Doe", ("Buy", Some 20240105)));
      ("TSLA", (VStr "1000", ("Self", Some 20240106))) ].
Proof. repeat split. Qed.

Lemma drop_duplicates_by_incl {A} (eqb : A -> A -> bool) l :
  incl (drop_duplicates_by eqb l) l.
Proof.
  unfold drop_duplicates_by.
  assert (H : forall kept, incl (fold_left
                (fun kept r => if existsb (eqb r) kept then kept
                               else (kept ++ [r])%list) l kept)
                (kept ++ l)).
  { induction l as [ | x l IH ]; intros kept; simpl.
    - rewrite app_nil_r. apply incl_refl.
    - destruct (existsb (eqb x) kept).
      + intros y Hy. apply IH in Hy. apply in_app_or in Hy as [Hy | Hy];
          apply in_or_app; [ now left | right; now right ].
      + intros y Hy. apply IH in Hy. rewrite <- app_assoc in Hy. exact Hy. }
  exact (H []).
Qed.

Lemma keep_valid_record r : keep r = true -> valid_record r.
Proof.
  unfold keep, valid_record. intros H. apply andb_true_iff in H as [H1 H2].
  split.
  - intros E. rewrite E in H1. discriminate.
  - destruct (filing_date r); [ discriminate | discriminate ].
Qed.

Lemma clean_frames_valid to_datetime frames :
  Forall valid_record (clean_frames to_datetime frames).
Proof.
  apply Forall_forall. intros r Hr. unfold clean_frames in Hr.
  apply drop_duplicates_by_incl in Hr. apply filter_In in Hr as [_ Hr].
  now apply keep_valid_record.
Qed.

Lemma extract_from_html_valid to_datetime soup :
  Forall valid_record (_extract_from_html to_datetime soup).
Proof. apply clean_frames_valid. Qed.

Lemma next_pages_valid to_datetime more : forall df pages,
  Forall valid_record df ->
  Forall valid_record (next_pages to_datetime more df pages).
Proof.
  induction more as [ | k IH ]; intros df pages H; simpl; [ exact H | ].
  destruct pages as [ | p ps ]; [ exact H | ].
  destruct (_extract_from_html to_datetime p) as [ | r d2 ] eqn:E; [ exact H | ].
  apply IH. apply Forall_app. split; [ exact H | ].
  rewrite <- E. apply extract_from_html_valid.
Qed.

Lemma scrape_smartinsider_valid to_datetime max_pages first pages :
  Forall valid_record (scrape_smartinsider to_datetime max_pages first pages).
Proof. apply next_pages_valid, extract_from_html_valid. Qed.

End Extraction.

(** ** Frames *)

Section FrameFacts.
Import Data Frame Invariant.

Lemma positions_from_In c cols : forall i p,
  In p (positions_from i c cols) <->
  (i <= p)%nat /\ nth_error cols (p - i) = Some c.
Proof.
  induction cols as [ | c' r IH ]; intros i p; simpl.
  - split; [ tauto | ]. intros [_ H]. destruct (p - i)%nat; discriminate.
  - destruct (String.eqb_spec c c') as [ <- | Hne ]; simpl; rewrite IH.
    + split.
      * intros [ <- | [H1 H2] ].
        -- rewrite Nat.sub_diag. auto.
        -- split; [ lia | ].
           replace (p - i)%nat with (S (p - S i)) by lia. exact H2.
      * intros [H1 H2]. destruct (Nat.eq_dec i p) as [ | Hp ]; [ now left | ].
        right. split; [ lia | ].
        replace (p - i)%nat with (S (p - S i)) in H2 by lia. exact H2.
    + split.
      * intros [H1 H2]. split; [ lia | ].
        replace (p - i)%nat with (S (p - S i)) by lia. exact H2.
      * intros [H1 H2]. destruct (Nat.eq_dec i p) as [ <- | Hp ].
        -- rewrite Nat.sub_diag in H2. simpl in H2. congruence.
        -- split; [ lia | ].
           replace (p - i)%nat with (S (p - S i)) in H2 by lia. exact H2.
Qed.

Lemma positions_In c cols p :
  In p (positions c cols) <-> nth_error cols p = Some c.
Proof.
  unfold positions. rewrite positions_from_In, Nat.sub_0_r.
  split; [ tauto | intros H; split; [ lia | exact H ] ].
Qed.

Lemma positions_nil c cols : positions c cols = [] <-> ~ In c cols.
Proof.
  split.
  - intros E H. apply In_nth_error in H as [p Hp].
    apply positions_In in Hp. rewrite E in Hp. destruct Hp.
  - intros H. destruct (positions c cols) as [ | p ps ] eqn:E; [ reflexivity | ].
    exfalso. apply H. apply (nth_error_In cols p).
    apply positions_In. rewrite E. now left.
Qed.

Lemma positions_from_length c cols : forall i,
  List.length (positions_from i c cols) = count_occ string_dec cols c.
Proof.
  induction cols as [ | c' r IH ]; intros i; simpl; [ reflexivity | ].
  destruct (string_dec c' c) as [ E | E ];
    destruct (String.eqb_spec c c') as [ E' | E' ]; simpl; rewrite ?IH;
    congruence.
Qed.

Lemma positions_unique c cols :
  count_occ string_dec cols c = 1%nat -> exists i, positions c cols = [i].
Proof.
  intros H. unfold positions.
  pose proof (positions_from_length c cols 0) as L. rewrite H in L.
  destruct (positions_from 0 c cols) as [ | i [ | j r ] ]; try discriminate.
  now exists i.
Qed.

Lemma positions_app_other c c' cols :
  c' <> c -> positions c' (cols ++ [c]) = positions c' cols.
Proof.
  intros Hne. unfold positions. generalize 0%nat.
  induction cols as [ | x r IH ]; intros i; simpl.
  - destruct (String.eqb_spec c' c); [ contradiction | reflexivity ].
  - destruct (String.eqb c' x); now rewrite IH.
Qed.

Lemma positions_app_new c cols :
  ~ In c cols -> positions c (cols ++ [c]) = [List.length cols].
Proof.
  intros Hn. unfold positions.
  assert (H : forall i, positions_from i c (cols ++ [c])
                        = [(i + List.length cols)%nat]).
  { induction cols as [ | x r IH ]; intros i; simpl.
    - rewrite String.eqb_refl. f_equal. lia.
    - destruct (String.eqb_spec c x) as [ -> | _ ].
      + exfalso. apply Hn. now left.
      + rewrite IH; [ f_equal; lia | ]. intros H. apply Hn. now right. }
  exact (H 0%nat).
Qed.

Lemma zip_rows_map (g : list value -> value) l :
  zip_rows l (map g l) = map (fun x => (x, g x)) l.
Proof. induction l as [ | x l IH ]; simpl; [ | rewrite IH ]; reflexivity. Qed.

Lemma zip_rows_fst rs : forall col, map fst (zip_rows rs col) = rs.
Proof. induction rs as [ | r rs IH ]; intros col; simpl; [ | rewrite IH ]; reflexivity. Qed.

Lemma zip_rows_snd rs : forall col rv,
  In rv (zip_rows rs col) -> In (snd rv) col \/ snd rv = VNaN.
Proof.
  induction rs as [ | r rs IH ]; intros col rv; simpl; [ tauto | ].
  intros [ <- | H ].
  - destruct col; simpl; auto.
  - apply IH in H. destruct col; simpl in *; tauto.
Qed.

Lemma replace_nth_length i : forall row v,
  List.length (replace_nth i row v) = List.length row.
Proof.
  induction i as [ | i IH ]; intros [ | x r ] v; simpl; auto.
Qed.

Lemma replace_nth_same i : forall row v,
  (i < List.length row)%nat -> nth i (replace_nth i row v) VNaN = v.
Proof.
  induction i as [ | i IH ]; intros [ | x r ] v; simpl; try lia; auto.
  intros H. apply IH. lia.
Qed.

Lemma replace_nth_other i : forall j row v,
  i <> j -> nth j (replace_nth i row v) VNaN = nth j row VNaN.
Proof.
  induction i as [ | i IH ]; intros [ | j ] [ | x r ] v H; simpl; auto;
    try congruence.
Qed.

Lemma replace_all_length ps : forall row v,
  List.length (fold_left (fun row i => replace_nth i row v) ps row)
  = List.length row.
Proof.
  induction ps as [ | p ps IH ]; intros row v; simpl; [ reflexivity | ].
  rewrite IH. apply replace_nth_length.
Qed.

Lemma replace_all_other ps j : forall row v,
  ~ In j ps ->
  nth j (fold_left (fun row i => replace_nth i row v) ps row) VNaN
  = nth j row VNaN.
Proof.
  induction ps as [ | p ps IH ]; intros row v H; simpl; [ reflexivity | ].
  rewrite IH by (intros Hj; apply H; now right).
  apply replace_nth_other. intros ->. apply H. now left.
Qed.

Lemma replace_all_same ps j : forall row v,
  In j ps -> (j < List.length row)%nat ->
  nth j (fold_left (fun row i => replace_nth i row v) ps row) VNaN = v.
Proof.
  induction ps as [ | p ps IH ]; intros row v H Hj; simpl; [ destruct H | ].
  destruct (in_dec Nat.eq_dec j ps) as [Hin | Hout].
  - apply IH; [ exact Hin | now rewrite replace_nth_length ].
  - rewrite replace_all_other by exact Hout.
    destruct H as [ -> | H ]; [ | contradiction ].
    now apply replace_nth_same.
Qed.

Lemma setitem_columns df c col :
  columns (setitem df c col) = set_columns (columns df) c.
Proof. unfold setitem, set_columns. now destruct (positions c (columns df)). Qed.

Lemma setitem_rows df c col :
  rows (setitem df c col)
  = map (set_cell (columns df) c) (zip_rows (rows df) col).
Proof. unfold setitem, set_cell. now destruct (positions c (columns df)). Qed.

Lemma position_bound c cols p :
  In p (positions c cols) -> (p < List.length cols)%nat.
Proof.
  intros H. apply positions_In in H. apply nth_error_Some. congruence.
Qed.

Lemma set_cell_length cols c row v :
  List.length row = List.length cols ->
  List.length (set_cell cols c (row, v)) = List.length (set_columns cols c).
Proof.
  intros H. unfold set_cell, set_columns.
  destruct (positions c cols) as [ | p ps ]; cbn [fst snd].
  - rewrite !length_app, H. reflexivity.
  - now rewrite replace_all_length.
Qed.

Lemma set_cell_same cols c row v :
  List.length row = List.length cols ->
  cell (set_columns cols c) (set_cell cols c (row, v)) c = v.
Proof.
  intros H. unfold cell, set_cell, set_columns.
  destruct (positions c cols) as [ | p ps ] eqn:E; cbn [fst snd].
  - apply positions_nil in E. rewrite (positions_app_new c cols E).
    rewrite app_nth2 by lia. rewrite H, Nat.sub_diag. reflexivity.
  - rewrite E. apply replace_all_same; [ now left | ].
    rewrite H. apply (position_bound c). rewrite E. now left.
Qed.

Lemma set_cell_other cols c c' row v :
  List.length row = List.length cols -> c' <> c ->
  cell (set_columns cols c) (set_cell cols c (row, v)) c' = cell cols row c'.
Proof.
  intros H Hne. unfold cell, set_cell, set_columns.
  destruct (positions c cols) as [ | p ps ] eqn:E; cbn [fst snd].
  - rewrite (positions_app_other c c' cols Hne).
    destruct (positions c' cols) as [ | i r ] eqn:E'; [ reflexivity | ].
    apply app_nth1. rewrite H. apply (position_bound c'). rewrite E'. now left.
  - destruct (positions c' cols) as [ | i r ] eqn:E'; [ reflexivity | ].
    apply replace_all_other. rewrite <- E. intros Hi.
    apply positions_In in Hi.
    assert (Hi' : In i (positions c' cols)) by (rewrite E'; now left).
    apply positions_In in Hi'. congruence.
Qed.

Lemma zip_rows_In rs : forall col rv,
  In rv (zip_rows rs col) -> In (fst rv) rs.
Proof.
  intros col rv H. rewrite <- (zip_rows_fst rs col). now apply in_map.
Qed.

Lemma setitem_well_formed df c col :
  well_formed df -> well_formed (setitem df c col).
Proof.
  unfold well_formed. rewrite setitem_columns, setitem_rows, !Forall_forall.
  intros H row' Hr. apply in_map_iff in Hr as [[row v] [<- Hrv]].
  apply set_cell_length. apply H. exact (zip_rows_In _ _ _ Hrv).
Qed.

Lemma setitem_col_other Q df c c' col :
  well_formed df -> c' <> c ->
  col_all Q df c' -> col_all Q (setitem df c col) c'.
Proof.
  unfold well_formed, col_all.
  rewrite setitem_columns, setitem_rows, !Forall_forall.
  intros Hwf Hne H row' Hr. apply in_map_iff in Hr as [[row v] [<- Hrv]].
  apply zip_rows_In in Hrv. cbn [fst] in Hrv.
  rewrite set_cell_other; auto.
Qed.

Lemma setitem_col_same Q df c col :
  well_formed df ->
  (forall rv, In rv (zip_rows (rows df) col) -> Q (snd rv)) ->
  col_all Q (setitem df c col) c.
Proof.
  unfold well_formed, col_all.
  rewrite setitem_columns, setitem_rows, !Forall_forall.
  intros Hwf H row' Hr. apply in_map_iff in Hr as [[row v] [<- Hrv]].
  rewrite set_cell_same; [ exact (H _ Hrv) | ].
  apply Hwf. exact (zip_rows_In _ _ _ Hrv).
Qed.

Lemma setitem_rows_length df c col :
  List.length (rows (setitem df c col)) = List.length (rows df).
Proof.
  rewrite setitem_rows, length_map.
  rewrite <- (zip_rows_fst (rows df) col) at 2. now rewrite length_map.
Qed.

End FrameFacts.

(** ** The mirror fallback *)

Section FallbackFacts.
Import Text Data Frame Fallback Reference Invariant.
Variable to_datetime : list value -> list (option Z).
Variable isoformat : Z -> string.

Lemma getitem_series df c :
  count_occ string_dec (columns df) c = 1%nat ->
  getitem df c
  = inr (Series (map (fun row => cell (columns df) row c) (rows df))).
Proof.
  intros H. destruct (positions_unique _ _ H) as [i E].
  unfold getitem, cell. rewrite E. reflexivity.
Qed.

Lemma getitem_inv df c l :
  getitem df c = inr (Series l) ->
  l = map (fun row => cell (columns df) row c) (rows df).
Proof.
  unfold getitem, cell.
  destruct (positions c (columns df)) as [ | i [ | j r ] ]; try discriminate.
  intros [= <-]. reflexivity.
Qed.

Lemma set_columns_count cols c c' :
  In c' cols -> count_occ string_dec (set_columns cols c) c'
                = count_occ string_dec cols c'.
Proof.
  intros H. unfold set_columns. destruct (positions c cols) eqn:E; [ | reflexivity ].
  apply positions_nil in E. rewrite count_occ_app. simpl.
  destruct (string_dec c c'); [ subst; contradiction | lia ].
Qed.

Lemma setitem_ready df c col :
  ready (columns df) -> ready (columns (setitem df c col)).
Proof.
  intros H c' Hc'. rewrite setitem_columns, set_columns_count; [ now apply H | ].
  apply (count_occ_In string_dec). rewrite (H c' Hc'). lia.
Qed.

(** The steps, run backwards: what a step that did not raise has done. *)
Lemma parse_dates_inv df c df' :
  parse_dates to_datetime df c = inr df' ->
  exists col, df' = setitem df c col /\ Forall is_time_or_nan col.
Proof.
  unfold parse_dates, bind, ret.
  destruct (getitem df c) as [ e | [ l | ] ]; try discriminate; simpl.
  intros [= <-]. eexists. split; [ reflexivity | ].
  apply Forall_forall. intros v Hv. apply in_map_iff in Hv as [t [<- _]].
  left. now exists t.
Qed.

Lemma astype_str_then_inv f sel col :
  astype_str_then isoformat f sel = inr col ->
  exists l, sel = Series l /\
            col = map (fun v => str_map f (astype_str isoformat v)) l.
Proof.
  unfold astype_str_then, bind, ret. destruct sel as [ l | ]; simpl.
  - intros [= <-]. exists l. now rewrite map_map.
  - discriminate.
Qed.

Lemma str_map_astype_text f v : is_text (str_map f (astype_str isoformat v)).
Proof. unfold astype_str. simpl. eexists. reflexivity. Qed.

Lemma strip_column_inv df c df' :
  strip_column isoformat df c = inr df' ->
  exists g, df' = setitem df c (map g (rows df)) /\ forall row, is_text (g row).
Proof.
  unfold strip_column, bind, ret.
  destruct (getitem df c) as [ e | sel ] eqn:G; try discriminate.
  destruct (astype_str_then isoformat strip sel) as [ e | col ] eqn:A;
    try discriminate.
  intros [= <-]. apply astype_str_then_inv in A as [l [-> ->]].
  apply getitem_inv in G. subst l. rewrite map_map.
  eexists. split; [ reflexivity | ]. intros row. apply str_map_astype_text.
Qed.

Lemma flag_column_inv target words df df' :
  flag_column target words df = inr df' ->
  exists col, df' = setitem df target col.
Proof.
  unfold flag_column, bind, ret.
  destruct (getitem df "type") as [ e | [ l | ] ]; try discriminate; simpl.
  intros [= <-]. eexists. reflexivity.
Qed.

Lemma zip_and_map {B} (f g : B -> bool) l :
  zip_and (map f l) (map g l) = map (fun x => f x && g x) l.
Proof. induction l as [ | x l IH ]; simpl; [ | rewrite IH ]; reflexivity. Qed.

Lemma select_map (m : list value -> bool) l : select (map m l) l = filter m l.
Proof.
  induction l as [ | x l IH ]; simpl; [ reflexivity | ].
  rewrite IH. reflexivity.
Qed.

Lemma keep_valid_inv df df' :
  keep_valid df = inr df' ->
  df' = {| columns := columns df;
           rows := drop_duplicates_by row_eqb
                     (filter (row_kept (columns df)) (rows df)) |}.
Proof.
  unfold keep_valid, bind, ret.
  destruct (getitem df "ticker") as [ e | [ tk | ] ] eqn:T; try discriminate;
    destruct (getitem df "filing_date") as [ e | [ fd | ] ] eqn:F;
    try discriminate.
  intros [= <-]. apply getitem_inv in T, F. subst tk fd.
  rewrite !map_map, zip_and_map, select_map. reflexivity.
Qed.

(** The steps, run forwards: they do not raise when their label is the
    label of exactly one column. *)
Lemma parse_dates_ok df c :
  count_occ string_dec (columns df) c = 1%nat ->
  exists df', parse_dates to_datetime df c = inr df'.
Proof.
  intros H. unfold parse_dates. rewrite (getitem_series df c H). simpl.
  eexists. reflexivity.
Qed.

Lemma strip_column_ok df c :
  count_occ string_dec (columns df) c = 1%nat ->
  exists df', strip_column isoformat df c = inr df'.
Proof.
  intros H. unfold strip_column. rewrite (getitem_series df c H). simpl.
  eexists. reflexivity.
Qed.

Lemma flag_column_ok target words df :
  count_occ string_dec (columns df) "type" = 1%nat ->
  exists df', flag_column target words df = inr df'.
Proof.
  intros H. unfold flag_column. rewrite (getitem_series df _ H). simpl.
  eexists. reflexivity.
Qed.

Lemma keep_valid_ok df :
  count_occ string_dec (columns df) "ticker" = 1%nat ->
  count_occ string_dec (columns df) "filing_date" = 1%nat ->
  exists df', keep_valid df = inr df'.
Proof.
  intros H1 H2. unfold keep_valid.
  rewrite (getitem_series df _ H1), (getitem_series df _ H2). simpl.
  eexists. reflexivity.
Qed.

Lemma setitem_any_time_or_nan df c col :
  well_formed df -> Forall is_time_or_nan col ->
  col_all is_time_or_nan (setitem df c col) c.
Proof.
  intros Hwf Hcol. apply setitem_col_same; [ exact Hwf | ].
  intros rv Hrv. apply zip_rows_snd in Hrv as [H | ->].
  - rewrite Forall_forall in Hcol. now apply Hcol.
  - now right.
Qed.

Lemma setitem_map_text df c g :
  well_formed df -> (forall row, is_text (g row)) ->
  col_all is_text (setitem df c (map g (rows df))) c.
Proof.
  intros Hwf Hg. apply setitem_col_same; [ exact Hwf | ].
  rewrite zip_rows_map. intros rv Hrv.
  apply in_map_iff in Hrv as [row [<- _]]. apply Hg.
Qed.

Lemma drop_duplicates_by_length {A} (eqb : A -> A -> bool) l :
  (List.length (drop_duplicates_by eqb l) <= List.length l)%nat.
Proof.
  unfold drop_duplicates_by.
  assert (H : forall kept,
    (List.length (fold_left (fun kept r => if existsb (eqb r) kept then kept
                                           else (kept ++ [r])%list) l kept)
     <= List.length kept + List.length l)%nat).
  { induction l as [ | x l IH ]; intros kept; simpl; [ lia | ].
    destruct (existsb (eqb x) kept).
    - specialize (IH kept). lia.
    - specialize (IH (kept ++ [x])%list). rewrite length_app in IH.
      simpl in IH. lia. }
  exact (H []).
Qed.

Lemma bind_inv {A B} (m : result A) (k : A -> result B) y :
  bind m k = inr y -> exists x, m = inr x /\ k x = inr y.
Proof. destruct m as [ e | x ]; simpl; [ discriminate | ]. now exists x. Qed.

(** What [clean] returns when it does not raise. *)
Lemma clean_inv df0 df :
  well_formed df0 -> clean to_datetime isoformat df0 = inr df ->
  Forall (valid_row (columns df)) (rows df) /\
  (List.length (rows df) <= List.length (rows df0))%nat.
Proof.
  intros W0 H. unfold clean in H.
  apply bind_inv in H as [dA [HA H]]. cbn [for_each] in HA.
  apply bind_inv in HA as [df1 [E1 HA]].
  apply bind_inv in HA as [df2 [E2 HA]].
  injection HA as <-.
  apply bind_inv in H as [sel [E3 H]].
  apply bind_inv in H as [col [E4 H]]. cbv zeta in H.
  apply bind_inv in H as [dB [HB H]]. cbn [for_each] in HB.
  apply bind_inv in HB as [df4 [E5 HB]].
  apply bind_inv in HB as [df5 [E6 HB]].
  apply bind_inv in HB as [df6 [E7 HB]].
  injection HB as <-.
  apply bind_inv in H as [df7 [E8 H]].
  apply bind_inv in H as [df8 [E9 K]].
  apply keep_valid_inv in K.
  apply parse_dates_inv in E1 as [c1 [-> T1]].
  apply parse_dates_inv in E2 as [c2 [-> _]].
  apply astype_str_then_inv in E4 as [l [-> ->]].
  apply getitem_inv in E3. subst l. rewrite map_map in E5.
  pose proof (setitem_well_formed df0 "filing_date" c1 W0) as W1.
  pose proof (setitem_any_time_or_nan df0 "filing_date" c1 W0 T1) as D1.
  pose proof (setitem_rows_length df0 "filing_date" c1) as L1.
  set (df1 := setitem df0 "filing_date" c1) in *. clearbody df1.
  pose proof (setitem_well_formed df1 "transaction_date" c2 W1) as W2.
  assert (D2 : col_all is_time_or_nan (setitem df1 "transaction_date" c2)
                       "filing_date")
    by (apply setitem_col_other; [ exact W1 | discriminate | exact D1 ]).
  pose proof (setitem_rows_length df1 "transaction_date" c2) as L2.
  rewrite L1 in L2. clear L1 W1 D1.
  set (df2 := setitem df1 "transaction_date" c2) in *. clearbody df2.
  match type of E5 with
  | strip_column _ (setitem df2 "ticker" (map ?g _)) _ = _ =>
      pose proof (setitem_well_formed df2 "ticker" (map g (rows df2)) W2) as W;
      assert (T : col_all is_text (setitem df2 "ticker" (map g (rows df2)))
                          "ticker")
        by (apply setitem_map_text;
            [ exact W2 | intros row; apply str_map_astype_text ]);
      assert (D : col_all is_time_or_nan
                    (setitem df2 "ticker" (map g (rows df2))) "filing_date")
        by (apply setitem_col_other; [ exact W2 | discriminate | exact D2 ]);
      pose proof (setitem_rows_length df2 "ticker" (map g (rows df2))) as L;
      rewrite L2 in L; clear L2 W2 D2;
      set (df3 := setitem df2 "ticker" (map g (rows df2))) in *;
      clearbody df3
  end.
  apply strip_column_inv in E5 as [g4 [-> _]].
  apply strip_column_inv in E6 as [g5 [-> _]].
  apply strip_column_inv in E7 as [g6 [-> _]].
  apply flag_column_inv in E8 as [c7 ->].
  apply flag_column_inv in E9 as [c8 ->].
  repeat match goal with
  | W' : well_formed ?d, T' : col_all is_text ?d "ticker",
    D' : col_all is_time_or_nan ?d "filing_date",
    L' : List.length (rows ?d) = _,
    K' : context [ setitem ?d ?c ?v ] |- _ =>
      let W2 := fresh "W" in let T2 := fresh "T" in
      let D2 := fresh "D" in let L2 := fresh "L" in
      pose proof (setitem_well_formed d c v W') as W2;
      assert (T2 : col_all is_text (setitem d c v) "ticker")
        by (apply setitem_col_other; [ exact W' | discriminate | exact T' ]);
      assert (D2 : col_all is_time_or_nan (setitem d c v) "filing_date")
        by (apply setitem_col_other; [ exact W' | discriminate | exact D' ]);
      pose proof (setitem_rows_length d c v) as L2;
      rewrite L' in L2; clear W' T' D' L';
      let d' := fresh "df" in
      set (d' := setitem d c v) in *; clearbody d'
  end.
  subst df. cbn [columns rows].
  match goal with
  | T' : col_all is_text ?d "ticker",
    D' : col_all is_time_or_nan ?d "filing_date",
    L' : List.length (rows ?d) = _ |- _ =>
      rename T' into T; rename D' into D; rename L' into L
  end.
  split.
  - apply Forall_forall. intros row Hr.
    apply drop_duplicates_by_incl in Hr. apply filter_In in Hr as [Hr Hk].
    unfold row_kept in Hk. apply andb_true_iff in Hk as [Hk1 Hk2].
    unfold col_all in T, D. rewrite Forall_forall in T, D.
    destruct (T row Hr) as [s Hs]. destruct (D row Hr) as [[t Ht] | Hn].
    + split.
      * exists s. split; [ exact Hs | ]. intros ->. rewrite Hs in Hk1.
        discriminate.
      * rewrite Ht in Hk2 |- *. destruct t as [ t | ]; [ | discriminate ].
        now exists t.
    + rewrite Hn in Hk2. discriminate.
  - etransitivity; [ apply drop_duplicates_by_length | ].
    etransitivity; [ apply filter_length_le | ]. rewrite L. apply Nat.le_refl.
Qed.

(** Under [ready], no step raises, and [ready] is kept. *)
Lemma parse_dates_step df c :
  ready (columns df) -> In c canonical_labels ->
  exists df', parse_dates to_datetime df c = inr df' /\ ready (columns df').
Proof.
  intros R Hc. destruct (parse_dates_ok df c (R c Hc)) as [df' E].
  exists df'. split; [ exact E | ].
  apply parse_dates_inv in E as [col [-> _]]. now apply setitem_ready.
Qed.

Lemma strip_column_step df c :
  ready (columns df) -> In c canonical_labels ->
  exists df', strip_column isoformat df c = inr df' /\ ready (columns df').
Proof.
  intros R Hc. destruct (strip_column_ok df c (R c Hc)) as [df' E].
  exists df'. split; [ exact E | ].
  apply strip_column_inv in E as [g [-> _]]. now apply setitem_ready.
Qed.

Lemma flag_column_step target words df :
  ready (columns df) ->
  exists df', flag_column target words df = inr df' /\ ready (columns df').
Proof.
  intros R.
  destruct (flag_column_ok target words df) as [df' E];
    [ apply R; simpl; tauto | ].
  exists df'. split; [ exact E | ].
  apply flag_column_inv in E as [col ->]. now apply setitem_ready.
Qed.

Lemma clean_ok df0 :
  ready (columns df0) -> exists df, clean to_datetime isoformat df0 = inr df.
Proof.
  intros R0. unfold clean. cbn [for_each]. unfold ret.
  destruct (parse_dates_step df0 "filing_date" R0) as [df1 [E1 R1]];
    [ simpl; tauto | ].
  rewrite E1. cbn [bind].
  destruct (parse_dates_step df1 "transaction_date" R1) as [df2 [E2 R2]];
    [ simpl; tauto | ].
  rewrite E2. cbn [bind].
  rewrite (getitem_series df2 "ticker") by (apply R2; simpl; tauto).
  cbn [bind]. unfold astype_str_then, str_accessor, ret. cbn [bind].
  match goal with
  | |- context [ setitem df2 "ticker" ?col ] =>
      pose proof (setitem_ready df2 "ticker" col R2) as R3;
      set (df3 := setitem df2 "ticker" col) in *; clearbody df3
  end.
  destruct (strip_column_step df3 "name" R3) as [df4 [E4 R4]];
    [ simpl; tauto | ].
  rewrite E4. cbn [bind].
  destruct (strip_column_step df4 "company" R4) as [df5 [E5 R5]];
    [ simpl; tauto | ].
  rewrite E5. cbn [bind].
  destruct (strip_column_step df5 "type" R5) as [df6 [E6 R6]];
    [ simpl; tauto | ].
  rewrite E6. cbn [bind].
  destruct (flag_column_step "is_buy" ["buy"; "purchase"] df6 R6)
    as [df7 [E7 R7]].
  rewrite E7. cbn [bind].
  destruct (flag_column_step "is_sell" ["sell"; "sale"] df7 R7)
    as [df8 [E8 R8]].
  rewrite E8. cbn [bind].
  apply keep_valid_ok; apply R8; simpl; tauto.
Qed.

Lemma concat_well_formed frames : well_formed (concat frames).
Proof.
  unfold well_formed, concat. cbn [columns rows].
  apply Forall_forall. intros row Hr.
  apply in_flat_map in Hr as [f [_ Hr]].
  apply in_map_iff in Hr as [r [<- _]]. apply length_map.
Qed.

Lemma rename_well_formed mapping df :
  well_formed df -> well_formed (rename mapping df).
Proof.
  unfold well_formed, rename. cbn [columns rows]. now rewrite length_map.
Qed.

Lemma concat_fetched_rows responses :
  List.length (rows (concat (fetched responses)))
  = List.length (elements responses).
Proof.
  unfold concat, fetched, elements. cbn [rows].
  generalize (labels (flat_map columns
    (flat_map (fun r => match r with
                        | Some js => [DataFrame js]
                        | None => []
                        end) responses))) as cols.
  intros cols. induction responses as [ | [ js | ] rest IH ]; simpl; auto.
  rewrite !length_app, IH, !length_map. reflexivity.
Qed.

(** C3. No row with an empty ticker or without a filing date is in the
    canonical dataset: neither in what [_extract_from_html] returns for a
    document, nor in what [scrape_smartinsider] gathers over the pages,
    nor in the frame [load_public_fallback] returns. *)
Theorem canonical_dataset_valid :
  (forall soup,
     Forall valid_record (Extract._extract_from_html to_datetime soup)) /\
  (forall max_pages first pages,
     Forall valid_record
       (Extract.scrape_smartinsider to_datetime max_pages first pages)) /\
  (forall responses df,
     load_public_fallback to_datetime isoformat responses = inr df ->
     Forall (valid_row (columns df)) (rows df)).
Proof.
  split; [ | split ].
  - intros soup. apply extract_from_html_valid.
  - intros n first pages. apply scrape_smartinsider_valid.
  - intros responses df. unfold load_public_fallback.
    destruct (fetched responses) as [ | f fs ] eqn:E.
    + intros [= <-]. constructor.
    + intros H. apply clean_inv in H; [ tauto | ].
      apply rename_well_formed, concat_well_formed.
Qed.

(** C9 (amended). When, after the renaming, each of the six labels
    [filing_date], [transaction_date], [ticker], [name], [company] and
    [type] names exactly one column of the concatenated frame, the
    fallback normalisation does not raise, whatever keys single elements
    lack, and returns a frame whose rows all have a non-empty ticker and
    a filing date, at most as many rows as there were elements. *)
Theorem load_public_fallback_total responses :
  ready (columns (rename renames (concat (fetched responses)))) ->
  exists df,
    load_public_fallback to_datetime isoformat responses = inr df /\
    Forall (valid_row (columns df)) (rows df) /\
    (List.length (rows df) <= List.length (elements responses))%nat.
Proof.
  intros R. unfold load_public_fallback.
  destruct (fetched responses) as [ | f fs ] eqn:E.
  - exists empty. split; [ reflexivity | ].
    split; [ constructor | simpl; lia ].
  - destruct (clean_ok _ R) as [df H]. exists df. split; [ exact H | ].
    rewrite <- concat_fetched_rows, E.
    apply clean_inv in H; [ | apply rename_well_formed, concat_well_formed ].
    exact H.
Qed.

End FallbackFacts.

(** ** Worked inputs *)

Section Worked.
Import Data Html Frame Fallback Extract Aggregate Reference.

(** Two tables with different header wording: both are read, and each
    ticker is reported with one person. *)
Example two_tables :
  let doc := Sample.page
    [ Sample.table ["Ticker"; "Politician"; "Type"; "Filing Date"]
                   [["AAPL"; "Jane Doe"; "Buy"; "2024-01-05"]];
      Sample.table ["Symbol"; "Senator"; "Transaction"; "Disclosure Date"]
                   [["MSFT"; "John Roe"; "Sale"; "2024-01-06"]] ] in
  let df := _extract_from_html Sample.to_datetime doc in
  let rows := snd (group_daily df 20240101 [] []) in
  map ticker df = ["AAPL"; "MSFT"] /\
  map people rows = [1; 1]%nat /\
  map buys rows = [1; 0]%nat /\ map sells rows = [0; 1]%nat.
Proof. repeat split. Qed.

(** The allow-list is applied before the deny-list. *)
Example allow_then_deny :
  let doc := Sample.page
    [ Sample.table ["Ticker"; "Politician"; "Type"; "Filing Date"]
                   [["AAPL"; "Jane Doe"; "Buy"; "2024-01-05"];
                    ["TSLA"; "Jane Doe"; "Sale"; "2024-01-05"];
                    ["MSFT"; "John Roe"; "Sale"; "2024-01-06"]] ] in
  let df := _extract_from_html Sample.to_datetime doc in
  map d_ticker (snd (group_daily df 20240101 ["AAPL"; "TSLA"] ["TSLA"]))
  = ["AAPL"].
Proof. reflexivity. Qed.

(** C1 (as stated) fails on a row whose name cell is empty: the empty
    string is a [str], so it is listed and counted, where the sorted
    distinct non-empty names are none. *)
Lemma empty_name_is_listed :
  let doc := Sample.page
    [ Sample.table ["Ticker"; "Politician"; "Type"; "Filing Date"]
                   [["AAPL"; EmptyString; "Buy"; "2024-01-05"]] ] in
  let df := _extract_from_html Sample.to_datetime doc in
  let rows := snd (group_daily df 20240101 [] []) in
  map d_ticker rows = ["AAPL"] /\
  map politicians rows = [[EmptyString]] /\
  map people rows = [1%nat] /\
  nonempty_names (filter (with_ticker "AAPL") (fst (group_daily df 20240101 [] [])))
  = [].
Proof. repeat split. Qed.

(** C9 (as stated) fails when a key is missing from every element: the
    column does not exist and reading it raises [KeyError]. *)
Lemma load_public_fallback_missing_column :
  load_public_fallback Sample.to_datetime Sample.isoformat
    [Some [Sample.undated_element]; None]
  = inl (KeyError "filing_date").
Proof. reflexivity. Qed.

Lemma ready_by_count cols :
  forallb (fun c => Nat.eqb (count_occ string_dec cols c) 1) canonical_labels
  = true -> ready cols.
Proof.
  intros H c Hc. rewrite forallb_forall in H.
  apply Nat.eqb_eq. now apply H.
Qed.

Lemma load_public_fallback_total_witness :
  exists df,
    load_public_fallback Sample.to_datetime Sample.isoformat
      [ Some [ Sample.senate_element; [("ticker", VStr "MSFT")];
               [("senator", VStr "Jane Doe");
                ("disclosure_date", VStr "2024-01-06")] ];
        None ] = inr df /\
    Forall (valid_row (columns df)) (rows df) /\
    (List.length (rows df) <= 3)%nat.
Proof.
  apply (load_public_fallback_total Sample.to_datetime Sample.isoformat).
  apply ready_by_count. vm_compute. reflexivity.
Defined.

Lemma canonical_dataset_valid_witness :
  Forall (valid_row
            ["transaction_date"; "ticker"; "company"; "type"; "name";
             "filing_date"; "is_buy"; "is_sell"])
    [ [ VTime (Some 20240102); VStr "AAPL"; VStr "Apple Inc";
        VStr "Purchase"; VStr "Jane Doe"; VTime (Some 20240105);
        VBool true; VBool false ] ].
Proof.
  exact (proj2 (proj2 (canonical_dataset_valid Sample.to_datetime
                         Sample.isoformat))
           [Some [Sample.senate_element; [("ticker", VStr "MSFT")]]; None]
           _ eq_refl).
Defined.

(** With both mirrors fetched, [senator] and [representative] are both
    renamed to [name]: [df["name"]] is then a frame, which has no [.str]. *)
Example load_public_fallback_both_mirrors :
  load_public_fallback Sample.to_datetime Sample.isoformat
    [Some [Sample.senate_element]; Some [Sample.house_element]]
  = inl AttributeError.
Proof. reflexivity. Qed.

(** An element without a ticker is kept, its ticker reading ["NAN"]. *)
Example load_public_fallback_missing_ticker :
  exists df,
    load_public_fallback Sample.to_datetime Sample.isoformat
      [ Some [ Sample.senate_element;
               [("senator", VStr "Jane Doe");
                ("disclosure_date", VStr "2024-01-06")] ] ] = inr df /\
    map (fun row => cell (columns df) row "ticker") (rows df)
    = [VStr "AAPL"; VStr "NAN"].
Proof. eexists. split; reflexivity. Qed.

End Worked.

(** ** Headers up to case and surrounding whitespace *)

Section HeaderText.
Import Text Header Reference Property.

Lemma is_space_lower c : is_space (lower_char c) = is_space c.
Proof. destruct c as [[] [] [] [] [] [] [] []]; reflexivity. Qed.

Lemma is_space_upper c : is_space (upper_char c) = is_space c.
Proof. destruct c as [[] [] [] [] [] [] [] []]; reflexivity. Qed.

Lemma lower_lstrip s : lower (lstrip s) = lstrip (lower s).
Proof.
  induction s as [ | c r IH ]; simpl; [ reflexivity | ].
  rewrite is_space_lower. destruct (is_space c); [ exact IH | reflexivity ].
Qed.

Lemma lower_rstrip s : lower (rstrip s) = rstrip (lower s).
Proof.
  induction s as [ | c r IH ]; simpl; [ reflexivity | ].
  unfold lower in IH. rewrite <- IH, is_space_lower.
  destruct (rstrip r); simpl; [ destruct (is_space c) | ]; reflexivity.
Qed.

Lemma lower_collapse_ws s : forall b,
  lower (collapse_ws_from b s) = collapse_ws_from b (lower s).
Proof.
  unfold lower.
  induction s as [ | c r IH ]; intros b; simpl; [ reflexivity | ].
  rewrite is_space_lower.
  destruct (is_space c) eqn:E; [ destruct b | ]; simpl; rewrite ?IH;
    reflexivity.
Qed.

(** Lower-casing may be done first. *)
Lemma normalise_lower_first t :
  normalise t = strip (collapse_ws (lower t)).
Proof.
  unfold normalise, strip, collapse_ws.
  now rewrite lower_rstrip, lower_lstrip, lower_collapse_ws.
Qed.

Lemma lstrip_collapse_ws_any s b b' :
  lstrip (collapse_ws_from b s) = lstrip (collapse_ws_from b' s).
Proof.
  destruct s as [ | c r ]; simpl; [ reflexivity | ].
  destruct (is_space c) eqn:E; [ | reflexivity ].
  destruct b, b'; simpl; reflexivity.
Qed.

Lemma lstrip_collapse_ws_blank l : forall s b,
  blank l = true ->
  lstrip (collapse_ws_from b (l ++ s)) = lstrip (collapse_ws_from b s).
Proof.
  induction l as [ | c l IH ]; intros s b H; simpl in *; [ reflexivity | ].
  apply andb_true_iff in H as [Hc Hl]. rewrite Hc.
  destruct b; simpl; rewrite (IH s true Hl); apply lstrip_collapse_ws_any.
Qed.

Lemma collapse_ws_blank r : forall b,
  blank r = true -> blank (collapse_ws_from b r) = true.
Proof.
  induction r as [ | c r IH ]; intros b H; simpl in *; [ reflexivity | ].
  apply andb_true_iff in H as [Hc Hr]. rewrite Hc.
  destruct b; simpl; auto.
Qed.

Lemma collapse_ws_app_blank s r : forall b,
  blank r = true ->
  exists w, blank w = true /\
            collapse_ws_from b (s ++ r) = (collapse_ws_from b s ++ w)%string.
Proof.
  induction s as [ | c s IH ]; intros b H; simpl.
  - exists (collapse_ws_from b r). split; [ now apply collapse_ws_blank | reflexivity ].
  - destruct (is_space c); [ destruct b | ].
    + apply IH, H.
    + destruct (IH true H) as [w [Hw E]]. exists w. split; [ exact Hw | ].
      simpl. now rewrite E.
    + destruct (IH false H) as [w [Hw E]]. exists w. split; [ exact Hw | ].
      simpl. now rewrite E.
Qed.

Lemma rstrip_blank w : blank w = true -> rstrip w = EmptyString.
Proof.
  induction w as [ | c w IH ]; simpl; [ reflexivity | ].
  intros H. apply andb_true_iff in H as [Hc Hw]. now rewrite (IH Hw), Hc.
Qed.

Lemma lstrip_blank w : blank w = true -> lstrip w = EmptyString.
Proof.
  induction w as [ | c w IH ]; simpl; [ reflexivity | ].
  intros H. apply andb_true_iff in H as [Hc Hw]. now rewrite Hc, (IH Hw).
Qed.

Lemma rstrip_app_blank x w :
  blank w = true -> rstrip (x ++ w) = rstrip x.
Proof.
  intros H. induction x as [ | c x IH ]; simpl.
  - now apply rstrip_blank.
  - now rewrite IH.
Qed.

Lemma strip_app_blank a w : blank w = true -> strip (a ++ w) = strip a.
Proof.
  intros H. unfold strip. induction a as [ | c a IH ]; simpl.
  - now rewrite (lstrip_blank w H).
  - destruct (is_space c); [ exact IH | ].
    change (String c (a ++ w)) with (String c a ++ w)%string.
    now apply rstrip_app_blank.
Qed.

Lemma normalise_padding l m r :
  blank l = true -> blank r = true ->
  normalise (l ++ m ++ r) = normalise m.
Proof.
  intros Hl Hr. unfold normalise. f_equal. unfold collapse_ws.
  destruct (collapse_ws_app_blank m r false Hr) as [w [Hw E]].
  unfold strip at 1. rewrite lstrip_collapse_ws_blank by exact Hl.
  rewrite E. apply strip_app_blank, Hw.
Qed.

Lemma same_header_normalise h h' :
  same_header h h' -> normalise h' = normalise h.
Proof.
  intros [l [m [r [-> [Hl [Hr E]]]]]].
  rewrite normalise_padding by assumption.
  now rewrite !normalise_lower_first, E.
Qed.

(** X1. The header map does not change when the case of the header texts
    changes or whitespace is put around them. *)
Theorem header_map_ignores_case_and_padding ths ths' :
  Forall2 same_header ths ths' ->
  _guess_header_map ths' = _guess_header_map ths.
Proof.
  intros H. unfold _guess_header_map. f_equal. f_equal.
  induction H as [ | h h' t t' Hh _ IH ]; simpl; [ reflexivity | ].
  now rewrite IH, (same_header_normalise h h' Hh).
Qed.

Lemma header_map_ignores_case_and_padding_witness :
  _guess_header_map ["  TICKER"; "politician " ; " tYpE  "]
  = _guess_header_map ["Ticker"; "Politician"; "Type"].
Proof.
  apply header_map_ignores_case_and_padding.
  repeat constructor.
  - exists "  ", "TICKER", EmptyString. repeat split.
  - exists EmptyString, "politician", " ". repeat split.
  - exists " ", "tYpE", "  ". repeat split.
Defined.

Lemma first_match_from_sound th : forall i k,
  first_match_from i k th = -1 \/
  exists n t, first_match_from i k th = i + Z.of_nat n /\
              nth_error th n = Some t /\ any_key_in (aliases k) t = true.
Proof.
  induction th as [ | t r IH ]; intros i k; simpl; [ now left | ].
  destruct (any_key_in (aliases k) t) eqn:E.
  - right. exists 0%nat, t. repeat split; [ lia | exact E ].
  - destruct (IH (i + 1) k) as [H | [n [t' [H1 [H2 H3]]]]]; [ now left | ].
    right. exists (S n), t'. repeat split; [ lia | exact H2 | exact H3 ].
Qed.

(** X2. A field is either unresolved ([-1]) or resolved to the position of
    one of the given headers, and that header carries one of the field's
    aliases; so every index lies between [-1] and the number of headers. *)
Theorem guess_header_map_index_sound ths k :
  (get (_guess_header_map ths) k = -1 \/
   exists i h, get (_guess_header_map ths) k = Z.of_nat i /\
               nth_error ths i = Some h /\ carries_alias k h = true) /\
  -1 <= get (_guess_header_map ths) k < Z.of_nat (List.length ths).
Proof.
  rewrite guess_header_map_spec.
  destruct (first_match_from_sound (map normalise ths) 0 k)
    as [H | [n [t [H1 [H2 H3]]]]].
  - rewrite H. split; [ now left | ].
    split; [ lia | ]. destruct ths; simpl; lia.
  - rewrite nth_error_map in H2.
    destruct (nth_error ths n) as [h | ] eqn:E; [ | discriminate ].
    injection H2 as <-. rewrite H1. split.
    + right. exists n, h. split; [ reflexivity | ]. split; [ exact E | exact H3 ].
    + assert (n < List.length ths)%nat by (apply nth_error_Some; congruence).
      lia.
Qed.

End HeaderText.

(** ** More on table extraction *)

Section ExtractionMore.
Import Text Html Data Extract Reference Property.

Lemma fold_left_max_ge vs : forall v0 v,
  v <= v0 \/ In v vs -> v <= fold_left Z.max vs v0.
Proof.
  induction vs as [ | x vs IH ]; intros v0 v H; simpl.
  - destruct H as [ H | [] ]. exact H.
  - apply IH. destruct H as [ H | [ -> | H ] ]; [ left; lia | left; lia | now right ].
Qed.

Lemma get_le_max_index cmap k :
  0 <= Header.get cmap k -> Header.get cmap k <= Header.max_index cmap.
Proof.
  intros H.
  assert (Hin : In (Header.get cmap k) (map snd cmap)).
  { induction cmap as [ | [k' v] r IH ]; simpl in *; [ lia | ].
    destruct (Header.field_eqb k k'); [ now left | right; now apply IH ]. }
  unfold Header.max_index. destruct (map snd cmap) as [ | v vs ]; [ destruct Hin | ].
  apply fold_left_max_ge. destruct Hin as [ -> | Hin ]; [ left; lia | now right ].
Qed.

Lemma drop_header_row_incl ths rows : incl (drop_header_row ths rows) rows.
Proof.
  unfold drop_header_row. destruct rows as [ | r0 rest ]; [ apply incl_refl | ].
  destruct (strings_eqb (map lower r0) (map lower ths));
    [ apply incl_tl | ]; apply incl_refl.
Qed.

(** X3. Rows with too few cells are left out, so in every row a table
    contributes a resolved field reads a cell that is there: [pick]
    falls back to the empty string only for an unresolved field. *)
Theorem resolved_field_reads_cell cmap ths tbl r k :
  In r (drop_header_row ths (body_rows cmap tbl)) ->
  0 <= Header.get cmap k ->
  nth_error r (Z.to_nat (Header.get cmap k)) = Some (pick cmap k r).
Proof.
  intros Hr Hk. apply drop_header_row_incl in Hr.
  unfold body_rows in Hr. apply in_flat_map in Hr as [tr [_ Hr]].
  destruct (Z.of_nat (List.length (find_all ["td"; "th"] tr))
            <=? Header.max_index cmap) eqn:E; [ destruct Hr | ].
  destruct Hr as [ <- | [] ]. apply Z.leb_gt in E.
  pose proof (get_le_max_index cmap k Hk) as Hmax.
  unfold pick. rewrite length_map.
  assert (Hlt : (Header.get cmap k
                 <? Z.of_nat (List.length (find_all ["td"; "th"] tr))) = true)
    by (apply Z.ltb_lt; lia).
  assert (Hge : (0 <=? Header.get cmap k) = true) by now apply Z.leb_le.
  rewrite Hge, Hlt. cbn [andb].
  apply nth_error_nth'. rewrite length_map. lia.
Qed.

Lemma resolved_field_reads_cell_witness :
  let tbl := Sample.table ["Ticker"; "Name"; "Type"]
                          [["AAPL"; "Jane"; "Buy"]; ["MSFT"]] in
  let ths := header_texts tbl in
  let cmap := Header._guess_header_map ths in
  drop_header_row ths (body_rows cmap tbl) = [["AAPL"; "Jane"; "Buy"]] /\
  nth_error ["AAPL"; "Jane"; "Buy"] 2
  = Some (pick cmap Header.type ["AAPL"; "Jane"; "Buy"]).
Proof.
  intros tbl ths cmap. split; [ reflexivity | ].
  apply (resolved_field_reads_cell cmap ths tbl _ Header.type).
  - vm_compute. left. reflexivity.
  - vm_compute. discriminate.
Defined.

Lemma all_AZdot_sfilter u : all_AZdot (sfilter is_AZdot u) = true.
Proof.
  induction u as [ | c r IH ]; simpl; [ reflexivity | ].
  destruct (is_AZdot c) eqn:E; simpl; [ now rewrite E | exact IH ].
Qed.

Lemma rstrip_idempotent s : rstrip (rstrip s) = rstrip s.
Proof.
  induction s as [ | c r IH ]; simpl; [ reflexivity | ].
  destruct (rstrip r) as [ | c' r' ] eqn:E.
  - destruct (is_space c) eqn:Ec; simpl; [ reflexivity | now rewrite Ec ].
  - simpl in IH |- *. now rewrite IH.
Qed.

Lemma rstrip_head c r :
  is_space c = false -> exists r', rstrip (String c r) = String c r'.
Proof.
  intros H. simpl. destruct (rstrip r); [ rewrite H | ]; eexists; reflexivity.
Qed.

Lemma lstrip_head s :
  lstrip s = EmptyString \/
  exists c r, lstrip s = String c r /\ is_space c = false.
Proof.
  induction s as [ | c r IH ]; simpl; [ now left | ].
  destruct (is_space c) eqn:E; [ exact IH | ].
  right. exists c, r. auto.
Qed.

Lemma strip_idempotent s : strip (strip s) = strip s.
Proof.
  unfold strip. destruct (lstrip_head s) as [ E | [c [r [E Hc]]] ]; rewrite E.
  - reflexivity.
  - destruct (rstrip_head c r Hc) as [r' E']. rewrite E'.
    cbn [lstrip]. rewrite Hc, <- E'. apply rstrip_idempotent.
Qed.

Lemma clean_frames_from to_datetime frames r :
  In r (clean_frames to_datetime frames) ->
  keep r = true /\ exists x, r = clean_row x.
Proof.
  unfold clean_frames. intros H. apply drop_duplicates_by_incl in H.
  apply filter_In in H as [H Hk]. split; [ exact Hk | ].
  apply in_map_iff in H as [x [<- _]]. now exists x.
Qed.

(** X4. Every ticker [_extract_from_html] returns is made of the letters
    [A-Z] and ['.'] only, and cleaning it again changes nothing. *)
Theorem extracted_ticker_alphabet to_datetime soup :
  Forall (fun r => all_AZdot (ticker r) = true /\
                   clean_ticker (ticker r) = ticker r)
         (_extract_from_html to_datetime soup).
Proof.
  apply Forall_forall. intros r Hr.
  apply clean_frames_from in Hr as [_ [[x d] ->]]. cbn [clean_row ticker].
  unfold clean_ticker. split; [ apply all_AZdot_sfilter | ].
  now rewrite upper_sfilter_AZdot, sfilter_all.
Qed.

(** X5. In every record [_extract_from_html] returns, the name is a string
    and name, company and type carry no whitespace at either end; the two
    flags are what the patterns say of the stored type. *)
Theorem extracted_fields_trimmed to_datetime soup :
  Forall (fun r =>
            (exists s, name r = VStr s /\ strip s = s) /\
            strip (company r) = company r /\
            strip (type r) = type r /\
            is_buy r = contains_any_ci ["buy"; "purchase"] (type r) /\
            is_sell r = contains_any_ci ["sell"; "sale"] (type r))
         (_extract_from_html to_datetime soup).
Proof.
  apply Forall_forall. intros r Hr.
  apply clean_frames_from in Hr as [_ [[x d] ->]].
  cbn [clean_row name company type is_buy is_sell].
  repeat split; try apply strip_idempotent.
  eexists. split; [ reflexivity | apply strip_idempotent ].
Qed.

Lemma value_eqb_eq a b : value_eqb a b = true <-> a = b.
Proof.
  destruct a as [ s | | | [t | ] | x ], b as [ s' | | | [t' | ] | y ]; simpl;
    try (split; [ discriminate | congruence ]); try tauto.
  - rewrite String.eqb_eq. split; congruence.
  - rewrite Z.eqb_eq. split; congruence.
  - rewrite Bool.eqb_true_iff. split; congruence.
Qed.

Lemma option_Z_eqb_eq a b : option_Z_eqb a b = true <-> a = b.
Proof.
  destruct a as [ x | ], b as [ y | ]; simpl;
    try (split; [ discriminate | congruence ]); try tauto.
  rewrite Z.eqb_eq. split; congruence.
Qed.

Lemma record_eqb_eq a b : record_eqb a b = true <-> a = b.
Proof.
  unfold record_eqb. destruct a, b; cbn.
  rewrite !andb_true_iff, !String.eqb_eq, value_eqb_eq, !option_Z_eqb_eq,
    !Bool.eqb_true_iff.
  split; [ intuition congruence | intros [= -> -> -> -> -> -> -> ->]; tauto ].
Qed.

Section DropDuplicates.
Context {A : Type} (eqb : A -> A -> bool).
Hypothesis eqb_eq : forall a b, eqb a b = true <-> a = b.

Lemma existsb_eqb_iff x kept : existsb (eqb x) kept = true <-> In x kept.
Proof.
  rewrite existsb_exists. split.
  - intros [y [Hy E]]. apply eqb_eq in E. now subst.
  - intros H. exists x. split; [ exact H | now apply eqb_eq ].
Qed.

Lemma drop_duplicates_fold l : forall kept,
  NoDup kept ->
  let out := fold_left (fun kept r => if existsb (eqb r) kept then kept
                                      else (kept ++ [r])%list) l kept in
  NoDup out /\ forall x, In x out <-> In x kept \/ In x l.
Proof.
  induction l as [ | y l IH ]; intros kept Hnd; cbn [fold_left].
  - split; [ exact Hnd | ]. simpl. tauto.
  - destruct (existsb (eqb y) kept) eqn:E.
    + apply existsb_eqb_iff in E. destruct (IH kept Hnd) as [H1 H2].
      split; [ exact H1 | ]. intros x. rewrite H2. simpl.
      intuition (subst; auto).
    + assert (Hy : ~ In y kept).
      { intros H. apply existsb_eqb_iff in H. congruence. }
      assert (Hnd' : NoDup (kept ++ [y])).
      { apply NoDup_app; [ exact Hnd | repeat constructor; simpl; tauto | ].
        intros x Hx [ <- | [] ]. contradiction. }
      destruct (IH _ Hnd') as [H1 H2]. split; [ exact H1 | ].
      intros x. rewrite H2, in_app_iff. simpl. tauto.
Qed.

Lemma drop_duplicates_by_NoDup l : NoDup (drop_duplicates_by eqb l).
Proof. apply (drop_duplicates_fold l []). constructor. Qed.

Lemma drop_duplicates_by_In l x :
  In x (drop_duplicates_by eqb l) <-> In x l.
Proof.
  destruct (drop_duplicates_fold l [] (NoDup_nil A)) as [_ H].
  unfold drop_duplicates_by. rewrite H. simpl. tauto.
Qed.

Lemma drop_duplicates_fold_known l : forall kept,
  incl l kept ->
  fold_left (fun kept r => if existsb (eqb r) kept then kept
                           else (kept ++ [r])%list) l kept = kept.
Proof.
  induction l as [ | y l IH ]; intros kept H; cbn [fold_left]; [ reflexivity | ].
  assert (E : existsb (eqb y) kept = true)
    by (apply existsb_eqb_iff, H; now left).
  rewrite E. apply IH. intros x Hx. apply H. now right.
Qed.

(** Rows that are repeats of earlier rows add nothing. *)
Lemma drop_duplicates_by_app_known a b :
  incl b a -> drop_duplicates_by eqb (a ++ b) = drop_duplicates_by eqb a.
Proof.
  intros H. unfold drop_duplicates_by. rewrite fold_left_app.
  apply drop_duplicates_fold_known.
  intros x Hx. apply drop_duplicates_by_In. now apply H.
Qed.

End DropDuplicates.

(** X6. [_extract_from_html] returns no record twice, and loses none: a
    cleaned row is in the result exactly when it has a ticker and a
    filing date. *)
Theorem extracted_records_distinct to_datetime frames :
  NoDup (clean_frames to_datetime frames) /\
  forall r, In r (clean_frames to_datetime frames) <->
            In r (cleaned_rows to_datetime frames) /\ valid_record r.
Proof.
  unfold clean_frames. split.
  - apply drop_duplicates_by_NoDup, record_eqb_eq.
  - intros r. rewrite (drop_duplicates_by_In _ record_eqb_eq), filter_In.
    unfold cleaned_rows.
    assert (Hk : keep r = true <-> valid_record r).
    { split; [ apply keep_valid_record | ].
      unfold keep, valid_record. intros [H1 H2].
      destruct (String.eqb_spec (ticker r) EmptyString); [ contradiction | ].
      destruct (filing_date r); [ reflexivity | contradiction ]. }
    now rewrite Hk.
Qed.

Lemma with_dates_cellwise (parse : value -> option Z) df f g :
  with_dates df (map parse (map f df)) (map parse (map g df))
  = map (fun r => (r, (parse (f r), parse (g r)))) df.
Proof.
  induction df as [ | r df IH ]; simpl; [ | rewrite IH ]; reflexivity.
Qed.

(** X7. When dates are parsed cell by cell, tables that repeat tables
    already read add nothing to the result: reading a document's tables
    twice gives the records of reading them once. *)
Theorem repeated_tables_add_nothing to_datetime tables again :
  cellwise to_datetime -> incl again tables ->
  extract_tables to_datetime (tables ++ again)
  = extract_tables to_datetime tables.
Proof.
  intros [parse Hparse] Hincl.
  assert (Hform : forall frames,
            clean_frames to_datetime frames
            = drop_duplicates_by record_eqb
                (filter keep
                   (map (fun r => clean_row
                           (r, (parse (VStr (raw_filing_date r)),
                                parse (VStr (raw_transaction_date r)))))
                        (List.concat frames)))).
  { intros frames. unfold clean_frames. rewrite !Hparse.
    rewrite with_dates_cellwise, map_map. reflexivity. }
  unfold extract_tables. rewrite !Hform, frames_of_app, concat_app, map_app,
    filter_app.
  apply (drop_duplicates_by_app_known _ record_eqb_eq).
  intros r Hr. apply filter_In in Hr as [Hr Hk]. apply filter_In.
  split; [ | exact Hk ].
  apply in_map_iff in Hr as [x [<- Hx]].
  apply in_map_iff. exists x. split; [ reflexivity | ].
  apply in_concat in Hx as [df [Hdf Hx]]. apply in_concat. exists df.
  split; [ | exact Hx ].
  unfold frames_of in *. apply in_flat_map in Hdf as [tbl [Ht Hdf]].
  apply in_flat_map. exists tbl. split; [ now apply Hincl | exact Hdf ].
Qed.

Lemma repeated_tables_add_nothing_witness :
  let t := Sample.table ["Ticker"; "Politician"; "Type"; "Filing Date"]
                        [["AAPL"; "Jane Doe"; "Buy"; "2024-01-05"]] in
  map ticker (extract_tables Sample.to_datetime [t; t]) = ["AAPL"].
Proof.
  intros t. change [t; t] with ([t] ++ [t])%list.
  rewrite (repeated_tables_add_nothing Sample.to_datetime [t] [t]).
  - reflexivity.
  - exists (fun v => match v with VStr s => Sample.iso_date s | _ => None end).
    reflexivity.
  - apply incl_refl.
Defined.

(** X8. [scrape_smartinsider] returns the records of the first page
    followed by those of the next pages, in order, up to the first page
    that yields no record and to [max_pages] pages in all; what two
    pages share is kept twice. *)
Theorem scrape_smartinsider_pages to_datetime max_pages first pages :
  scrape_smartinsider to_datetime max_pages first pages
  = (_extract_from_html to_datetime first ++
     List.concat
       (until_empty
          (firstn (max_pages - 1)
                  (map (_extract_from_html to_datetime) pages))))%list.
Proof.
  unfold scrape_smartinsider.
  generalize (_extract_from_html to_datetime first) as df.
  generalize (max_pages - 1)%nat as more. intros more. revert pages.
  induction more as [ | k IH ]; intros pages df; simpl.
  - now rewrite app_nil_r.
  - destruct pages as [ | p ps ]; simpl; [ now rewrite app_nil_r | ].
    destruct (_extract_from_html to_datetime p) as [ | r d2 ] eqn:E.
    + now rewrite app_nil_r.
    + rewrite IH. simpl. now rewrite <- app_assoc.
Qed.

End ExtractionMore.

(** ** More on the aggregations *)

Section AggregationsMore.
Import Data Aggregate Reference Invariant.

Lemma add_to_group_perm k r g :
  Permutation (List.concat (map snd (add_to_group k r g)))
              (r :: List.concat (map snd g)).
Proof.
  induction g as [ | [k' rs] g IH ]; simpl; [ reflexivity | ].
  destruct (String.eqb k k'); simpl.
  - rewrite <- app_assoc. simpl.
    symmetry. apply Permutation_middle.
  - rewrite IH. symmetry. apply Permutation_middle.
Qed.

Lemma collect_perm_from d : forall g,
  Permutation
    (List.concat
       (map snd (fold_left (fun groups r => add_to_group (ticker r) r groups)
                           d g)))
    (List.concat (map snd g) ++ d).
Proof.
  induction d as [ | r d IH ]; intros g; simpl.
  - now rewrite app_nil_r.
  - rewrite IH, add_to_group_perm. apply Permutation_middle.
Qed.

(** The groups hold the rows of the frame, each once. *)
Lemma groupby_perm d : Permutation (List.concat (map snd (groupby d))) d.
Proof.
  transitivity (List.concat (map snd (collect d))).
  - unfold groupby.
    generalize (sort_by_perm (fun a b => String.leb (fst a) (fst b)) (collect d)).
    generalize (sort_by (fun a b => String.leb (fst a) (fst b)) (collect d)).
    intros l H. induction H; simpl; auto.
    + now apply Permutation_app_head.
    + rewrite !app_assoc. apply Permutation_app_tail, Permutation_app_comm.
    + etransitivity; eauto.
  - apply (collect_perm_from d []).
Qed.

Lemma sum_map_perm {A} (f : A -> nat) l l' :
  Permutation l l' -> list_sum (map f l) = list_sum (map f l').
Proof. induction 1; simpl; lia. Qed.

Lemma filter_length_perm {A} (p : A -> bool) l l' :
  Permutation l l' ->
  List.length (filter p l) = List.length (filter p l').
Proof.
  induction 1 as [ | x l l' _ IH | x y l | l l' l'' _ IH1 _ IH2 ]; simpl.
  - reflexivity.
  - destruct (p x); simpl; lia.
  - destruct (p x), (p y); reflexivity.
  - lia.
Qed.

Lemma sum_filter_concat {A} (p : A -> bool) ls :
  list_sum (map (fun l => List.length (filter p l)) ls)
  = List.length (filter p (List.concat ls)).
Proof.
  induction ls as [ | l ls IH ]; simpl; [ reflexivity | ].
  now rewrite filter_app, length_app, IH.
Qed.

Lemma sum_over_groups (p : record -> bool) d :
  list_sum (map (fun g => count p (snd g)) (groupby d)) = count p d.
Proof.
  unfold count.
  rewrite <- (map_map snd (fun l => List.length (filter p l))).
  rewrite sum_filter_concat. apply filter_length_perm, groupby_perm.
Qed.

Lemma filter_true_length {A} (l : list A) :
  List.length (filter (fun _ => true) l) = List.length l.
Proof. induction l; simpl; auto. Qed.

(** X10. [group_daily] has exactly one row for each ticker that occurs in
    the window: the tickers of its rows are distinct, a ticker has a row
    exactly when a record of the window carries it, and there is no row
    exactly when the window is empty. *)
Theorem group_daily_one_row_per_ticker df since whitelist blacklist :
  let d := fst (group_daily df since whitelist blacklist) in
  let rows := snd (group_daily df since whitelist blacklist) in
  NoDup (map d_ticker rows) /\
  (forall k, In k (map d_ticker rows) <-> exists r, In r d /\ ticker r = k) /\
  (rows = [] <-> d = []).
Proof.
  cbn [group_daily fst snd].
  set (d := window df since whitelist blacklist).
  pose proof (collect_grouped d) as [Hnd Hrows Hkeys].
  assert (Hperm : Permutation
            (map d_ticker (sort_by daily_before (map daily_of (groupby d))))
            (map fst (collect d))).
  { rewrite (Permutation_map d_ticker (sort_by_perm _ _)), map_map.
    rewrite (map_ext (fun g => d_ticker (daily_of g)) fst)
      by (intros [k rs]; reflexivity).
    apply Permutation_map, sort_by_perm. }
  assert (Hiff : forall k, In k (map fst (collect d))
                           <-> exists r, In r d /\ ticker r = k).
  { intros k. split.
    - intros H. apply in_map_iff in H as [[k' rs] [<- H]].
      destruct (Hrows _ _ H) as [E Hne]. destruct rs as [ | r rs ]; [ congruence | ].
      assert (Hr : In r (filter (with_ticker k') d)) by (rewrite <- E; now left).
      apply filter_In in Hr as [Hr Hk]. exists r. split; [ exact Hr | ].
      now apply String.eqb_eq.
    - intros [r [Hr <-]]. now apply Hkeys. }
  split; [ | split ].
  - apply (Permutation_NoDup (l := map fst (collect d)));
      [ now symmetry | exact Hnd ].
  - intros k. rewrite <- Hiff. split; apply Permutation_in;
      [ exact Hperm | now symmetry ].
  - split.
    + intros E. rewrite E in Hperm. apply Permutation_nil in Hperm.
      destruct d as [ | r d' ]; [ reflexivity | ].
      assert (H : In (ticker r) (map fst (collect (r :: d'))))
        by (apply Hkeys; now left).
      rewrite Hperm in H. destruct H.
    + intros E. rewrite E. reflexivity.
Qed.

(** X11. Nothing is lost or counted twice: over the rows of [group_daily],
    [trades] adds up to the number of records in the window, and [buys]
    and [sells] to the numbers of records flagged as buy and as sell. *)
Theorem group_daily_totals df since whitelist blacklist :
  let d := fst (group_daily df since whitelist blacklist) in
  let rows := snd (group_daily df since whitelist blacklist) in
  list_sum (map trades rows) = List.length d /\
  list_sum (map buys rows) = count is_buy d /\
  list_sum (map sells rows) = count is_sell d.
Proof.
  cbn [group_daily fst snd].
  set (d := window df since whitelist blacklist).
  assert (H : forall (f : daily_row -> nat) (p : record -> bool),
            (forall g, f (daily_of g) = count p (snd g)) ->
            list_sum (map f (sort_by daily_before (map daily_of (groupby d))))
            = count p d).
  { intros f p Hf. rewrite (sum_map_perm f _ _ (sort_by_perm _ _)), map_map.
    rewrite (map_ext _ _ Hf). apply sum_over_groups. }
  split; [ | split ].
  - rewrite (H trades (fun _ => true)).
    + apply filter_true_length.
    + intros [k rs]. unfold count. cbn. now rewrite filter_true_length.
  - apply H. intros [k rs]. reflexivity.
  - apply H. intros [k rs]. reflexivity.
Qed.

(** X12. For the same dataset, cutoff and lists, [trend_30d] and
    [group_daily] see the same window and report, ticker by ticker, the
    same buys, sells and politicians: the two results differ in their
    order and in the columns [trades], [people] and [total_trades] only. *)
Theorem trend_30d_matches_group_daily df since whitelist blacklist :
  fst (trend_30d df since whitelist blacklist)
  = fst (group_daily df since whitelist blacklist) /\
  Permutation
    (map (fun t => (t_ticker t, (t_buys t, (t_sells t, t_politicians t))))
         (snd (trend_30d df since whitelist blacklist)))
    (map (fun r => (d_ticker r, (buys r, (sells r, politicians r))))
         (snd (group_daily df since whitelist blacklist))).
Proof.
  split; [ reflexivity | ]. cbn [trend_30d group_daily snd].
  set (G := groupby (window df since whitelist blacklist)).
  rewrite (Permutation_map _ (sort_by_perm trend_before (map trend_of G))).
  rewrite (Permutation_map _ (sort_by_perm daily_before (map daily_of G))).
  rewrite !map_map.
  rewrite (map_ext
             (fun g => (t_ticker (trend_of g),
                        (t_buys (trend_of g),
                         (t_sells (trend_of g), t_politicians (trend_of g)))))
             (fun g => (d_ticker (daily_of g),
                        (buys (daily_of g),
                         (sells (daily_of g), politicians (daily_of g))))))
    by (intros [k rs]; reflexivity).
  reflexivity.
Qed.

End AggregationsMore.

(** ** More on the mirror fallback *)

Section FallbackMore.
Import Text Data Frame Fallback Reference Invariant Property.
Variable to_datetime : list value -> list (option Z).
Variable isoformat : Z -> string.

Lemma set_columns_present cols c :
  count_occ string_dec cols c = 1%nat -> set_columns cols c = cols.
Proof.
  intros H. destruct (positions_unique _ _ H) as [i E].
  unfold set_columns. now rewrite E.
Qed.

Lemma getitem_missing df c :
  ~ In c (columns df) -> getitem df c = inl (KeyError c).
Proof.
  intros H. apply positions_nil in H. unfold getitem. now rewrite H.
Qed.

Lemma getitem_repeated df c :
  (2 <= count_occ string_dec (columns df) c)%nat ->
  getitem df c = inr SubFrame.
Proof.
  intros H. unfold getitem, positions.
  pose proof (positions_from_length c (columns df) 0) as L.
  destruct (positions_from 0 c (columns df)) as [ | i [ | j r ] ];
    simpl in L; try lia. reflexivity.
Qed.

(** A step on a label that names one column leaves the labels alone. *)
Lemma parse_dates_same_columns df c :
  count_occ string_dec (columns df) c = 1%nat ->
  exists df', parse_dates to_datetime df c = inr df' /\
              columns df' = columns df.
Proof.
  intros H. destruct (parse_dates_ok to_datetime df c H) as [df' E].
  exists df'. split; [ exact E | ].
  apply parse_dates_inv in E as [col [-> _]].
  now rewrite setitem_columns, set_columns_present.
Qed.

Lemma strip_column_same_columns df c :
  count_occ string_dec (columns df) c = 1%nat ->
  exists df', strip_column isoformat df c = inr df' /\
              columns df' = columns df.
Proof.
  intros H. destruct (strip_column_ok isoformat df c H) as [df' E].
  exists df'. split; [ exact E | ].
  apply strip_column_inv in E as [g [-> _]].
  now rewrite setitem_columns, set_columns_present.
Qed.

Lemma parse_dates_missing df c :
  ~ In c (columns df) -> parse_dates to_datetime df c = inl (KeyError c).
Proof. intros H. unfold parse_dates. now rewrite (getitem_missing df c H). Qed.

Lemma strip_column_missing df c :
  ~ In c (columns df) -> strip_column isoformat df c = inl (KeyError c).
Proof. intros H. unfold strip_column. now rewrite (getitem_missing df c H). Qed.

Lemma clean_key_error df0 pre c post :
  canonical_labels = (pre ++ c :: post)%list ->
  (forall c', In c' pre -> count_occ string_dec (columns df0) c' = 1%nat) ->
  ~ In c (columns df0) ->
  clean to_datetime isoformat df0 = inl (KeyError c).
Proof.
  intros Hsplit Hpre Hc. unfold clean. cbn [for_each]. unfold ret.
  unfold canonical_labels in Hsplit.
  destruct pre as [ | p1 pre ]; cbn [app] in Hsplit.
  { injection Hsplit as <- _. now rewrite parse_dates_missing. }
  injection Hsplit as <- Hsplit.
  destruct (parse_dates_same_columns df0 "filing_date") as [df1 [E1 C1]];
    [ apply Hpre; now left | ].
  rewrite E1. cbn [bind].
  destruct pre as [ | p2 pre ]; cbn [app] in Hsplit.
  { injection Hsplit as <- _. rewrite parse_dates_missing; [ reflexivity | ].
    now rewrite C1. }
  injection Hsplit as <- Hsplit.
  destruct (parse_dates_same_columns df1 "transaction_date") as [df2 [E2 C2]];
    [ rewrite C1; apply Hpre; simpl; tauto | ].
  rewrite E2. cbn [bind]. rewrite C1 in C2.
  destruct pre as [ | p3 pre ]; cbn [app] in Hsplit.
  { injection Hsplit as <- _. rewrite getitem_missing; [ reflexivity | ].
    now rewrite C2. }
  injection Hsplit as <- Hsplit.
  rewrite (getitem_series df2 "ticker")
    by (rewrite C2; apply Hpre; simpl; tauto).
  cbn [bind]. unfold astype_str_then, str_accessor, ret. cbn [bind].
  match goal with
  | |- context [ setitem df2 "ticker" ?col ] =>
      assert (C3 : columns (setitem df2 "ticker" col) = columns df0)
        by (rewrite setitem_columns, set_columns_present;
            [ exact C2 | rewrite C2; apply Hpre; simpl; tauto ]);
      set (df3 := setitem df2 "ticker" col) in *; clearbody df3
  end.
  destruct pre as [ | p4 pre ]; cbn [app] in Hsplit.
  { injection Hsplit as <- _. rewrite strip_column_missing; [ reflexivity | ].
    now rewrite C3. }
  injection Hsplit as <- Hsplit.
  destruct (strip_column_same_columns df3 "name") as [df4 [E4 C4]];
    [ rewrite C3; apply Hpre; simpl; tauto | ].
  rewrite E4. cbn [bind]. rewrite C3 in C4.
  destruct pre as [ | p5 pre ]; cbn [app] in Hsplit.
  { injection Hsplit as <- _. rewrite strip_column_missing; [ reflexivity | ].
    now rewrite C4. }
  injection Hsplit as <- Hsplit.
  destruct (strip_column_same_columns df4 "company") as [df5 [E5 C5]];
    [ rewrite C4; apply Hpre; simpl; tauto | ].
  rewrite E5. cbn [bind]. rewrite C4 in C5.
  destruct pre as [ | p6 pre ]; cbn [app] in Hsplit.
  { injection Hsplit as <- _. rewrite strip_column_missing; [ reflexivity | ].
    now rewrite C5. }
  injection Hsplit as _ Hsplit. destruct pre; discriminate.
Qed.

Lemma fetched_columns_nonempty responses c :
  In c (columns (rename renames (concat (fetched responses)))) ->
  fetched responses <> [].
Proof. intros H E. rewrite E in H. destruct H. Qed.

(** X13. A label that names no column raises [KeyError]: when some mirror
    answered and [c] is the first of [filing_date], [transaction_date],
    [ticker], [name], [company], [type] that no key of any element is
    renamed to, the labels before it naming one column each,
    [load_public_fallback] raises [KeyError c]. An empty array from the
    only mirror that answered is such a case. *)
Theorem load_public_fallback_key_error responses pre c post :
  fetched responses <> [] ->
  canonical_labels = (pre ++ c :: post)%list ->
  (forall c', In c' pre ->
     count_occ string_dec
       (columns (rename renames (concat (fetched responses)))) c' = 1%nat) ->
  ~ In c (columns (rename renames (concat (fetched responses)))) ->
  load_public_fallback to_datetime isoformat responses = inl (KeyError c).
Proof.
  intros Hf Hsplit Hpre Hc. unfold load_public_fallback.
  destruct (fetched responses) as [ | f fs ] eqn:E; [ contradiction | ].
  now apply (clean_key_error _ pre c post).
Qed.

(** X14. When two keys are renamed to [name], as when one element has
    [senator] and another [representative], [df["name"]] is a frame and
    has no [.str]: with [filing_date], [transaction_date] and [ticker]
    naming one column each, [load_public_fallback] raises
    [AttributeError]. *)
Theorem load_public_fallback_two_names responses :
  let cols := columns (rename renames (concat (fetched responses))) in
  count_occ string_dec cols "filing_date" = 1%nat ->
  count_occ string_dec cols "transaction_date" = 1%nat ->
  count_occ string_dec cols "ticker" = 1%nat ->
  (2 <= count_occ string_dec cols "name")%nat ->
  load_public_fallback to_datetime isoformat responses = inl AttributeError.
Proof.
  intros cols H1 H2 H3 H4. subst cols.
  assert (Hne : fetched responses <> []).
  { intros E. rewrite E in H1. discriminate. }
  unfold load_public_fallback.
  destruct (fetched responses) as [ | f fs ] eqn:E; [ contradiction | ].
  set (df0 := rename renames (concat (f :: fs))) in *.
  unfold clean. cbn [for_each]. unfold ret.
  destruct (parse_dates_same_columns df0 "filing_date" H1) as [df1 [E1 C1]].
  rewrite E1. cbn [bind].
  destruct (parse_dates_same_columns df1 "transaction_date") as [df2 [E2 C2]];
    [ now rewrite C1 | ].
  rewrite E2. cbn [bind]. rewrite C1 in C2.
  rewrite (getitem_series df2 "ticker") by now rewrite C2.
  cbn [bind]. unfold astype_str_then, str_accessor, ret. cbn [bind].
  match goal with
  | |- context [ setitem df2 "ticker" ?col ] =>
      assert (C3 : columns (setitem df2 "ticker" col) = columns df0)
        by (rewrite setitem_columns, set_columns_present;
            [ exact C2 | now rewrite C2 ]);
      set (df3 := setitem df2 "ticker" col) in *; clearbody df3
  end.
  unfold strip_column at 1.
  rewrite (getitem_repeated df3 "name") by now rewrite C3.
  reflexivity.
Qed.

(** X15. Failed fetches are swallowed: when no mirror answers, the result
    is the empty frame, without a column, and no exception. *)
Theorem load_public_fallback_nothing_fetched responses :
  (forall r, In r responses -> r = None) ->
  load_public_fallback to_datetime isoformat responses = inr empty.
Proof.
  intros H. unfold load_public_fallback.
  replace (fetched responses) with (@nil frame); [ reflexivity | ].
  symmetry. unfold fetched.
  induction responses as [ | r rs IH ]; simpl; [ reflexivity | ].
  rewrite (H r) by now left. apply IH. intros x Hx. apply H. now right.
Qed.

Lemma strip_column_exact df c df' :
  strip_column isoformat df c = inr df' ->
  df' = setitem df c
          (map (fun row => str_map strip
                             (astype_str isoformat (cell (columns df) row c)))
               (rows df)).
Proof.
  unfold strip_column, bind, ret.
  destruct (getitem df c) as [ e | sel ] eqn:G; try discriminate.
  destruct (astype_str_then isoformat strip sel) as [ e | col ] eqn:A;
    try discriminate.
  intros [= <-]. apply astype_str_then_inv in A as [l [-> ->]].
  apply getitem_inv in G. subst l. now rewrite map_map.
Qed.

Lemma str_map_strip_trimmed v :
  is_trimmed (str_map strip (astype_str isoformat v)).
Proof.
  unfold astype_str. simpl. eexists. split; [ reflexivity | ].
  apply strip_idempotent.
Qed.

Lemma str_map_clean_ticker_clean v :
  is_clean (str_map clean_ticker (astype_str isoformat v)).
Proof.
  unfold astype_str. simpl. eexists. split; [ reflexivity | ].
  apply all_AZdot_sfilter.
Qed.

Lemma row_eqb_eq a : forall b, row_eqb a b = true <-> a = b.
Proof.
  induction a as [ | x a IH ]; intros [ | y b ]; simpl;
    try (split; [ discriminate | congruence ]); try tauto.
  rewrite andb_true_iff, value_eqb_eq, IH. split; [ | intros [= -> ->]; tauto ].
  intros [-> ->]. reflexivity.
Qed.

Lemma setitem_map_all Q df c g :
  well_formed df -> (forall row, Q (g row)) ->
  col_all Q (setitem df c (map g (rows df))) c.
Proof.
  intros Hwf Hg. apply setitem_col_same; [ exact Hwf | ].
  rewrite zip_rows_map. intros rv Hrv.
  apply in_map_iff in Hrv as [row [<- _]]. apply Hg.
Qed.

(** The frame [clean] hands to the last line. *)
Lemma clean_shape df0 df :
  well_formed df0 -> clean to_datetime isoformat df0 = inr df ->
  exists df8,
    df = {| columns := columns df8;
            rows := drop_duplicates_by row_eqb
                      (filter (row_kept (columns df8)) (rows df8)) |} /\
    col_all is_clean df8 "ticker" /\
    col_all is_trimmed df8 "name" /\
    col_all is_trimmed df8 "company" /\
    col_all is_trimmed df8 "type".
Proof.
  intros W0 H. unfold clean in H.
  apply bind_inv in H as [dA [HA H]]. cbn [for_each] in HA.
  apply bind_inv in HA as [df1 [E1 HA]].
  apply bind_inv in HA as [df2 [E2 HA]].
  injection HA as <-.
  apply bind_inv in H as [sel [E3 H]].
  apply bind_inv in H as [col [E4 H]]. cbv zeta in H.
  apply bind_inv in H as [dB [HB H]]. cbn [for_each] in HB.
  apply bind_inv in HB as [df4 [E5 HB]].
  apply bind_inv in HB as [df5 [E6 HB]].
  apply bind_inv in HB as [df6 [E7 HB]].
  injection HB as <-.
  apply bind_inv in H as [df7 [E8 H]].
  apply bind_inv in H as [df8 [E9 K]].
  apply keep_valid_inv in K.
  apply parse_dates_inv in E1 as [c1 [-> _]].
  apply parse_dates_inv in E2 as [c2 [-> _]].
  apply astype_str_then_inv in E4 as [l [-> ->]].
  apply getitem_inv in E3. subst l. rewrite map_map in E5.
  pose proof (setitem_well_formed df0 "filing_date" c1 W0) as W1.
  set (df1 := setitem df0 "filing_date" c1) in *. clearbody df1.
  pose proof (setitem_well_formed df1 "transaction_date" c2 W1) as W2.
  set (df2 := setitem df1 "transaction_date" c2) in *. clearbody df2.
  match type of E5 with
  | strip_column _ (setitem df2 "ticker" (map ?g _)) _ = _ =>
      pose proof (setitem_well_formed df2 "ticker" (map g (rows df2)) W2) as W3;
      assert (T3 : col_all is_clean (setitem df2 "ticker" (map g (rows df2)))
                           "ticker")
        by (apply setitem_map_all;
            [ exact W2 | intros row; apply str_map_clean_ticker_clean ]);
      set (df3 := setitem df2 "ticker" (map g (rows df2))) in *;
      clearbody df3
  end.
  apply strip_column_exact in E5. apply strip_column_exact in E6.
  apply strip_column_exact in E7.
  apply flag_column_inv in E8 as [c7 E8].
  apply flag_column_inv in E9 as [c8 E9].
  assert (W4 : well_formed df4) by (subst df4; now apply setitem_well_formed).
  assert (T4 : col_all is_clean df4 "ticker")
    by (subst df4; apply setitem_col_other; [ exact W3 | discriminate | exact T3 ]).
  assert (N4 : col_all is_trimmed df4 "name")
    by (subst df4; apply setitem_map_all;
        [ exact W3 | intros row; apply str_map_strip_trimmed ]).
  clear E5.
  assert (W5 : well_formed df5) by (subst df5; now apply setitem_well_formed).
  assert (T5 : col_all is_clean df5 "ticker")
    by (subst df5; apply setitem_col_other; [ exact W4 | discriminate | exact T4 ]).
  assert (N5 : col_all is_trimmed df5 "name")
    by (subst df5; apply setitem_col_other; [ exact W4 | discriminate | exact N4 ]).
  assert (C5 : col_all is_trimmed df5 "company")
    by (subst df5; apply setitem_map_all;
        [ exact W4 | intros row; apply str_map_strip_trimmed ]).
  clear E6.
  assert (W6 : well_formed df6) by (subst df6; now apply setitem_well_formed).
  assert (T6 : col_all is_clean df6 "ticker")
    by (subst df6; apply setitem_col_other; [ exact W5 | discriminate | exact T5 ]).
  assert (N6 : col_all is_trimmed df6 "name")
    by (subst df6; apply setitem_col_other; [ exact W5 | discriminate | exact N5 ]).
  assert (C6 : col_all is_trimmed df6 "company")
    by (subst df6; apply setitem_col_other; [ exact W5 | discriminate | exact C5 ]).
  assert (Y6 : col_all is_trimmed df6 "type")
    by (subst df6; apply setitem_map_all;
        [ exact W5 | intros row; apply str_map_strip_trimmed ]).
  clear E7.
  assert (W7 : well_formed df7) by (subst df7; now apply setitem_well_formed).
  assert (T7 : col_all is_clean df7 "ticker")
    by (subst df7; apply setitem_col_other; [ exact W6 | discriminate | exact T6 ]).
  assert (N7 : col_all is_trimmed df7 "name")
    by (subst df7; apply setitem_col_other; [ exact W6 | discriminate | exact N6 ]).
  assert (C7 : col_all is_trimmed df7 "company")
    by (subst df7; apply setitem_col_other; [ exact W6 | discriminate | exact C6 ]).
  assert (Y7 : col_all is_trimmed df7 "type")
    by (subst df7; apply setitem_col_other; [ exact W6 | discriminate | exact Y6 ]).
  clear E8.
  exists df8. split; [ exact K | ].
  subst df8.
  repeat split; apply setitem_col_other; (exact W7 || discriminate || assumption).
Qed.

(** X16. The frame [load_public_fallback] returns has no two equal rows,
    and in each row the ticker is a string of [A-Z] and ['.'] only and
    name, company and type are strings without whitespace at either end. *)
Theorem load_public_fallback_rows responses df :
  load_public_fallback to_datetime isoformat responses = inr df ->
  NoDup (rows df) /\
  Forall (fun row =>
            is_clean (cell (columns df) row "ticker") /\
            is_trimmed (cell (columns df) row "name") /\
            is_trimmed (cell (columns df) row "company") /\
            is_trimmed (cell (columns df) row "type"))
         (rows df).
Proof.
  unfold load_public_fallback.
  destruct (fetched responses) as [ | f fs ] eqn:E.
  - intros [= <-]. split; constructor.
  - intros H. apply clean_shape in H as [df8 [-> [T [N [C Y]]]]];
      [ | apply rename_well_formed, concat_well_formed ].
    cbn [columns rows]. split.
    + apply drop_duplicates_by_NoDup, row_eqb_eq.
    + apply Forall_forall. intros row Hr.
      apply drop_duplicates_by_incl in Hr. apply filter_In in Hr as [Hr _].
      unfold col_all in *. rewrite Forall_forall in T, N, C, Y. auto.
Qed.

End FallbackMore.

Section FallbackWorked.
Import Data Frame Fallback Reference.

Lemma load_public_fallback_key_error_witness :
  load_public_fallback Sample.to_datetime Sample.isoformat
    [Some [Sample.senate_element]; Some []]
  = inr {| columns := ["transaction_date"; "ticker"; "company"; "type";
                       "name"; "filing_date"; "is_buy"; "is_sell"];
           rows := [ [ VTime (Some 20240102); VStr "AAPL"; VStr "Apple Inc";
                       VStr "Purchase"; VStr "Jane Doe";
                       VTime (Some 20240105); VBool true; VBool false ] ] |}
  /\ load_public_fallback Sample.to_datetime Sample.isoformat [None; Some []]
     = inl (KeyError "filing_date")
  /\ load_public_fallback Sample.to_datetime Sample.isoformat
       [Some [[("disclosure_date", VStr "2024-01-05");
               ("transaction_date", VStr "2024-01-02")]]]
     = inl (KeyError "ticker").
Proof.
  split; [ reflexivity | split ].
  - apply (load_public_fallback_key_error _ _ _ [] "filing_date"
             ["transaction_date"; "ticker"; "name"; "company"; "type"]).
    + discriminate.
    + reflexivity.
    + intros c' [].
    + intros [].
  - apply (load_public_fallback_key_error _ _ _
             ["filing_date"; "transaction_date"] "ticker"
             ["name"; "company"; "type"]).
    + discriminate.
    + reflexivity.
    + intros c' [ <- | [ <- | [] ] ]; reflexivity.
    + simpl. intuition discriminate.
Defined.

Lemma load_public_fallback_two_names_witness :
  load_public_fallback Sample.to_datetime Sample.isoformat
    [Some [Sample.senate_element]; Some [Sample.house_element]]
  = inl AttributeError.
Proof.
  apply load_public_fallback_two_names; vm_compute; try reflexivity; lia.
Defined.

Lemma load_public_fallback_nothing_fetched_witness :
  load_public_fallback Sample.to_datetime Sample.isoformat [None; None]
  = inr empty.
Proof.
  apply load_public_fallback_nothing_fetched.
  intros r [ <- | [ <- | [] ] ]; reflexivity.
Defined.

Lemma load_public_fallback_rows_witness :
  exists df,
    load_public_fallback Sample.to_datetime Sample.isoformat
      [Some [Sample.senate_element; Sample.senate_element]] = inr df /\
    List.length (rows df) = 1%nat /\ NoDup (rows df).
Proof.
  assert (H : load_public_fallback Sample.to_datetime Sample.isoformat
                [Some [Sample.senate_element; Sample.senate_element]]
              = inr {| columns := ["transaction_date"; "ticker"; "company";
                                   "type"; "name"; "filing_date"; "is_buy";
                                   "is_sell"];
                       rows := [ [ VTime (Some 20240102); VStr "AAPL";
                                   VStr "Apple Inc"; VStr "Purchase";
                                   VStr "Jane Doe"; VTime (Some 20240105);
                                   VBool true; VBool false ] ] |})
    by (vm_compute; reflexivity).
  eexists. split; [ exact H | ]. split; [ reflexivity | ].
  exact (proj1 (load_public_fallback_rows Sample.to_datetime Sample.isoformat
                  _ _ H)).
Defined.

End FallbackWorked.

(** ** Configuration and report *)

Section ConfigFacts.
Import Text Data Extract Aggregate Reference Property Config.

Lemma upper_lstrip s : upper (lstrip s) = lstrip (upper s).
Proof.
  induction s as [ | c r IH ]; simpl; [ reflexivity | ].
  rewrite is_space_upper. destruct (is_space c); [ exact IH | reflexivity ].
Qed.

Lemma upper_rstrip s : upper (rstrip s) = rstrip (upper s).
Proof.
  unfold upper. induction s as [ | c r IH ]; simpl; [ reflexivity | ].
  rewrite <- IH, is_space_upper.
  destruct (rstrip r); simpl; [ destruct (is_space c) | ]; reflexivity.
Qed.

Lemma upper_char_idempotent c : upper_char (upper_char c) = upper_char c.
Proof. destruct c as [[] [] [] [] [] [] [] []]; reflexivity. Qed.

Lemma upper_idempotent s : upper (upper s) = upper s.
Proof.
  unfold upper. induction s as [ | c r IH ]; simpl; [ reflexivity | ].
  now rewrite upper_char_idempotent, IH.
Qed.

Lemma upper_empty s : upper s = EmptyString -> s = EmptyString.
Proof. destruct s; simpl; [ reflexivity | discriminate ]. Qed.

Lemma blank_no_comma s : blank s = true -> split ","%char s = [s].
Proof.
  induction s as [ | c r IH ]; simpl; [ reflexivity | ].
  intros H. apply andb_true_iff in H as [Hc Hr]. rewrite (IH Hr).
  destruct (Ascii.eqb_spec c ","%char) as [ -> | _ ]; [ discriminate | reflexivity ].
Qed.

Lemma strip_blank s : blank s = true -> strip s = EmptyString.
Proof. intros H. unfold strip. now rewrite (lstrip_blank s H). Qed.

(** X17. Every entry of a ticker list read from the environment is
    non-empty, has no whitespace at either end and no lower-case letter;
    a variable that is unset, empty or blank gives the empty list, which
    switches the filter off. *)
Theorem ticker_list_entries env :
  Forall (fun e => e <> EmptyString /\ strip e = e /\ upper e = e)
         (ticker_list env) /\
  (blank env = true -> ticker_list env = []).
Proof.
  split.
  - apply Forall_forall. intros e He. unfold ticker_list in He.
    apply in_map_iff in He as [t [<- Ht]]. apply filter_In in Ht as [_ Ht].
    repeat split.
    + intros E. apply upper_empty in E. rewrite E in Ht. discriminate.
    + unfold strip at 1. rewrite <- upper_lstrip, <- upper_rstrip.
      f_equal. apply strip_idempotent.
    + apply upper_idempotent.
  - intros H. unfold ticker_list. rewrite (blank_no_comma env H). simpl.
    now rewrite (strip_blank env H).
Qed.

Lemma ticker_list_entries_witness :
  Config.ticker_list " aapl, brk.b ,,TSLA , " = ["AAPL"; "BRK.B"; "TSLA"] /\
  Config.ticker_list "   " = [].
Proof.
  split; [ reflexivity | ].
  apply (proj2 (ticker_list_entries "   ")). reflexivity.
Defined.

Lemma nothing_in_nil {A} (l : list A) : (forall x, ~ In x l) -> l = [].
Proof. destruct l as [ | x l ]; [ reflexivity | ]. intros H. destruct (H x). now left. Qed.

(** X18. The allow-list is compared with cleaned tickers as it stands: on
    a dataset whose tickers are made of [A-Z] and ['.'], as every
    extracted one is, an allow-list whose entries all hold some other
    character (a dash, a digit) lets nothing through, and both reports
    come out empty. *)
Theorem allow_list_outside_alphabet df since whitelist blacklist :
  Forall (fun r => all_AZdot (ticker r) = true) df ->
  whitelist <> [] ->
  Forall (fun w => all_AZdot w = false) whitelist ->
  snd (group_daily df since whitelist blacklist) = [] /\
  snd (trend_30d df since whitelist blacklist) = [].
Proof.
  intros Hdf Hne Hwl.
  assert (E : window df since whitelist blacklist = []).
  { apply nothing_in_nil. intros r Hr.
    apply window_In in Hr as [Hin [_ [[Hw | Hw] _]]]; [ contradiction | ].
    rewrite Forall_forall in Hdf, Hwl.
    specialize (Hdf r Hin). specialize (Hwl _ Hw). congruence. }
  unfold group_daily, trend_30d. rewrite E. split; reflexivity.
Qed.

Lemma allow_list_outside_alphabet_witness :
  let doc := Sample.page
    [ Sample.table ["Ticker"; "Politician"; "Type"; "Filing Date"]
                   [["BRK-B"; "Jane Doe"; "Buy"; "2024-01-05"]] ] in
  let df := _extract_from_html Sample.to_datetime doc in
  map ticker df = ["BRKB"] /\
  snd (group_daily df 20240101 (ticker_list "brk-b") []) = [].
Proof.
  intros doc df. split; [ reflexivity | ].
  apply (allow_list_outside_alphabet df 20240101 (ticker_list "brk-b") []).
  - vm_compute. repeat constructor.
  - vm_compute. discriminate.
  - vm_compute. repeat constructor.
Defined.

End ConfigFacts.

Section ReportFacts.
Import Aggregate Report.
Variable datetime : Type.
Variable strftime : datetime -> string -> string.

Lemma fold_append {A} (f : A -> string) l : forall lines,
  fold_left (fun lines x => append lines (f x)) l lines
  = (lines ++ map f l)%list.
Proof.
  induction l as [ | x l IH ]; intros lines; simpl.
  - now rewrite app_nil_r.
  - rewrite IH. unfold append. now rewrite <- app_assoc.
Qed.

Lemma enumerate_combine {A} (l : list A) : forall i,
  enumerate i l = combine (seq i (List.length l)) l.
Proof.
  induction l as [ | x l IH ]; intros i; simpl; [ | rewrite IH ]; reflexivity.
Qed.

(** X19. The report has the title and the first heading, then one bullet
    for each daily row, in order, closed by an empty line, or the line
    "No new filings in the period." when there is no row; then the second
    heading and, when there are trend rows, the two table head lines, one
    line for each row, in order, the row at position [i] (from 1)
    carrying rank [i], and an empty line, or else the line "No filings in
    the 30-day window.". *)
Theorem render_lines_structure now_dt tzname daily_since trend_since
    daily_agg trend_agg :
  render_lines datetime strftime now_dt tzname daily_since trend_since
               daily_agg trend_agg
  = ([ title datetime strftime now_dt tzname;
       daily_heading datetime strftime daily_since ] ++
     match daily_agg with
     | [] => [no_daily]
     | _ => map daily_line daily_agg ++ [EmptyString]
     end ++
     [ trend_heading datetime strftime trend_since ] ++
     match trend_agg with
     | [] => [no_trend]
     | _ => [table_head; table_rule] ++
            map (fun ir => trend_line (fst ir) (snd ir))
                (combine (seq 1 (List.length trend_agg)) trend_agg) ++
            [EmptyString]
     end)%list.
Proof.
  unfold render_lines.
  destruct daily_agg as [ | d ds ]; destruct trend_agg as [ | t ts ];
    cbv zeta; rewrite ?fold_append, ?enumerate_combine; unfold append;
    repeat rewrite <- app_assoc; reflexivity.
Qed.

End ReportFacts.

(** ** Substring matching *)

Section Matching.
Import Text Header.

Lemma prefix_iff key : forall t,
  prefix key t = true <-> exists b, t = (key ++ b)%string.
Proof.
  induction key as [ | c key IH ]; intros t.
  - split; [ intros _; now exists t | intros _; now destruct t ].
  - destruct t as [ | c' t ]; cbn [prefix append].
    + split; [ discriminate | intros [b H]; discriminate ].
    + destruct (ascii_dec c c') as [ <- | Hne ].
      * rewrite IH. split; intros [b H]; exists b; congruence.
      * split; [ discriminate | intros [b H]; congruence ].
Qed.

Lemma contains_iff key : forall t,
  contains key t = true <-> exists a b, t = (a ++ key ++ b)%string.
Proof.
  induction t as [ | c t IH ]; cbn [contains].
  - rewrite orb_false_r, prefix_iff. split.
    + intros [b H]. now exists EmptyString, b.
    + intros [a [b H]]. destruct a; [ now exists b | discriminate ].
  - rewrite orb_true_iff, prefix_iff, IH. split.
    + intros [[b H] | [a [b H]]].
      * now exists EmptyString, b.
      * exists (String c a), b. simpl. now rewrite H.
    + intros [a [b H]]. destruct a as [ | c' a ].
      * left. now exists b.
      * right. exists a, b. simpl in H. congruence.
Qed.

(** X20. A header carries an alias of a field exactly when one of the
    aliases listed for the field in [want] occurs somewhere inside the
    header's normalised text, whatever stands before and after it. *)
Theorem carries_alias_substring k h :
  carries_alias k h = true <->
  exists alias a b,
    In alias (aliases k) /\ normalise h = (a ++ alias ++ b)%string.
Proof.
  unfold carries_alias, any_key_in. rewrite existsb_exists. split.
  - intros [alias [Hin H]]. apply contains_iff in H as [a [b H]].
    now exists alias, a, b.
  - intros [alias [a [b [Hin H]]]]. exists alias. split; [ exact Hin | ].
    apply contains_iff. now exists a, b.
Qed.

End Matching.

(** ** The two windows of one run *)

Section Windows.
Import Data Aggregate Reference Invariant Property.

Lemma groupby_keys d k :
  In k (map fst (groupby d)) <-> exists r, In r d /\ ticker r = k.
Proof.
  pose proof (collect_grouped d) as [_ Hrows Hkeys].
  assert (E : In k (map fst (groupby d)) <-> In k (map fst (collect d))).
  { unfold groupby. split; apply Permutation_in, Permutation_map;
      [ apply sort_by_perm | symmetry; apply sort_by_perm ]. }
  rewrite E. split.
  - intros H. apply in_map_iff in H as [[k' rs] [<- H]].
    destruct (Hrows _ _ H) as [E' Hne]. destruct rs as [ | r rs ]; [ congruence | ].
    assert (Hr : In r (filter (with_ticker k') d)) by (rewrite <- E'; now left).
    apply filter_In in Hr as [Hr Hk]. exists r. split; [ exact Hr | ].
    now apply String.eqb_eq.
  - intros [r [Hr <-]]. now apply Hkeys.
Qed.

Lemma filter_twice {A} (f g : A -> bool) l :
  filter f (filter g l) = filter (fun x => g x && f x) l.
Proof.
  induction l as [ | x l IH ]; simpl; [ reflexivity | ].
  destruct (g x); simpl; [ destruct (f x) | ]; now rewrite IH.
Qed.

Lemma filter_length_mono {A} (f g : A -> bool) l :
  (forall x, f x = true -> g x = true) ->
  (List.length (filter f l) <= List.length (filter g l))%nat.
Proof.
  intros H. induction l as [ | x l IH ]; simpl; [ lia | ].
  destruct (f x) eqn:E.
  - rewrite (H x E). simpl. lia.
  - destruct (g x); simpl; lia.
Qed.

Lemma window_filter df since whitelist blacklist :
  window df since whitelist blacklist
  = filter (in_window since whitelist blacklist) df.
Proof.
  unfold window, in_window.
  destruct whitelist as [ | w wl ]; destruct blacklist as [ | b bl ];
    rewrite ?filter_twice; apply filter_ext; intros r;
    rewrite ?andb_true_r, ?andb_assoc; reflexivity.
Qed.

(** X9. The window of [group_daily] and [trend_30d] holds exactly the
    records filed at or after the cutoff whose ticker is in the allow-list,
    when there is one, and not in the deny-list; a record without filing
    date is never in it. *)
Theorem window_allow_then_deny df since whitelist blacklist r :
  In r (window df since whitelist blacklist) <->
  In r df /\
  (exists t, filing_date r = Some t /\ since <= t) /\
  (whitelist = [] \/ In (ticker r) whitelist) /\
  ~ In (ticker r) blacklist.
Proof.
  rewrite window_filter, filter_In. unfold in_window.
  rewrite !andb_true_iff.
  assert (Hs : since_ok since r = true <->
               exists t, filing_date r = Some t /\ since <= t).
  { unfold since_ok. destruct (filing_date r) as [t | ].
    - rewrite Z.leb_le. split; [ intros H; now exists t | ].
      intros [t' [[= <-] H]]. exact H.
    - split; [ discriminate | intros [t' [E _]]; discriminate ]. }
  assert (Hw : match whitelist with
               | [] => true
               | _ => isin whitelist (ticker r)
               end = true <-> whitelist = [] \/ In (ticker r) whitelist).
  { destruct whitelist as [ | w wl ]; [ tauto | ].
    unfold isin. rewrite existsb_eqb_In. intuition discriminate. }
  assert (Hb : match blacklist with
               | [] => true
               | _ => negb (isin blacklist (ticker r))
               end = true <-> ~ In (ticker r) blacklist).
  { destruct blacklist as [ | b bl ]; [ simpl; tauto | ].
    unfold isin. rewrite negb_true_iff, <- not_true_iff_false, existsb_eqb_In.
    tauto. }
  rewrite Hs, Hw, Hb. tauto.
Qed.



Lemma in_window_later s1 s2 whitelist blacklist r :
  s1 <= s2 ->
  in_window s2 whitelist blacklist r = true ->
  in_window s1 whitelist blacklist r = true.
Proof.
  intros Hs. unfold in_window, since_ok.
  destruct (filing_date r) as [t | ]; [ | discriminate ].
  rewrite !andb_true_iff, !Z.leb_le. intuition lia.
Qed.

(** The records of ticker [k] in the later window are among those in
    the earlier one, and so are those of them that pass a test. *)
Lemma later_group_smaller df s1 s2 whitelist blacklist k
    (p : record -> bool) :
  s1 <= s2 ->
  incl (filter (with_ticker k) (window df s2 whitelist blacklist))
       (filter (with_ticker k) (window df s1 whitelist blacklist)) /\
  (count p (filter (with_ticker k) (window df s2 whitelist blacklist))
   <= count p (filter (with_ticker k) (window df s1 whitelist blacklist)))%nat.
Proof.
  intros Hs. rewrite !window_filter. split.
  - intros r Hr. apply filter_In in Hr as [Hr Hk]. apply filter_In in Hr as [Hr Hw].
    apply filter_In. split; [ | exact Hk ]. apply filter_In.
    split; [ exact Hr | ]. exact (in_window_later _ _ _ _ _ Hs Hw).
  - unfold count. rewrite !filter_twice. apply filter_length_mono.
    intros r. pose proof (in_window_later s1 s2 whitelist blacklist r Hs) as Hl.
    destruct (in_window s2 whitelist blacklist r); [ | discriminate ].
    now rewrite (Hl eq_refl).
Qed.

(** X21. When the trend cutoff is not later than the daily cutoff, every
    ticker of the daily result has a row in the trend result, with at
    least as many buys and sells and with every politician of the daily
    row. *)
Theorem daily_rows_within_trend df daily_since trend_since
    whitelist blacklist :
  trend_since <= daily_since ->
  Forall
    (fun row =>
       exists trow,
         In trow (snd (trend_30d df trend_since whitelist blacklist)) /\
         t_ticker trow = d_ticker row /\
         (buys row <= t_buys trow)%nat /\
         (sells row <= t_sells trow)%nat /\
         incl (politicians row) (t_politicians trow))
    (snd (group_daily df daily_since whitelist blacklist)).
Proof.
  intros Hs. apply Forall_forall. intros row Hrow.
  destruct (group_daily_row_inv _ _ _ _ _ Hrow) as [rs [E [Hne Hr]]].
  set (k := d_ticker row) in *.
  set (wd := window df daily_since whitelist blacklist) in *.
  set (wt := window df trend_since whitelist blacklist).
  destruct (later_group_smaller df trend_since daily_since whitelist blacklist
              k is_buy Hs) as [Hincl Hbuy].
  destruct (later_group_smaller df trend_since daily_since whitelist blacklist
              k is_sell Hs) as [_ Hsell].
  fold wd wt in Hincl, Hbuy, Hsell. rewrite <- E in Hincl, Hbuy, Hsell.
  assert (Hkey : In k (map fst (groupby wt))).
  { apply groupby_keys. destruct rs as [ | r rs' ]; [ congruence | ].
    assert (Hin : In r (filter (with_ticker k) wt)) by (apply Hincl; now left).
    apply filter_In in Hin as [Hin Hk]. exists r. split; [ exact Hin | ].
    now apply String.eqb_eq. }
  apply in_map_iff in Hkey as [[k' rs'] [Hk' Hg]]. simpl in Hk'. subst k'.
  destruct (groupby_rows _ _ _ Hg) as [E' _].
  exists (trend_of (k, rs')). rewrite Hr. cbn.
  split; [ | split; [ reflexivity | ] ].
  - unfold trend_30d. cbn [snd]. apply sort_by_In.
    apply in_map_iff. exists (k, rs'). split; [ reflexivity | exact Hg ].
  - rewrite E'. split; [ exact Hbuy | split; [ exact Hsell | ] ].
    intros s Hin. apply politicians_of_In in Hin as [r [Hin Hname]].
    apply politicians_of_In. exists r. split; [ | exact Hname ].
    now apply Hincl.
Qed.

Lemma daily_rows_within_trend_witness :
  let doc := Sample.page
    [ Sample.table ["Ticker"; "Politician"; "Type"; "Filing Date"]
                   [["AAPL"; "Jane Doe"; "Buy"; "2024-01-05"];
                    ["AAPL"; "John Roe"; "Buy"; "2023-12-20"]] ] in
  let df := Extract._extract_from_html Sample.to_datetime doc in
  map (fun r => (d_ticker r, buys r)) (snd (group_daily df 20240104 [] []))
  = [("AAPL", 1%nat)] /\
  map (fun t => (t_ticker t, t_buys t)) (snd (trend_30d df 20231205 [] []))
  = [("AAPL", 2%nat)] /\
  Forall
    (fun row =>
       exists trow,
         In trow (snd (trend_30d df 20231205 [] [])) /\
         t_ticker trow = d_ticker row /\
         (buys row <= t_buys trow)%nat /\
         (sells row <= t_sells trow)%nat /\
         incl (politicians row) (t_politicians trow))
    (snd (group_daily df 20240104 [] [])).
Proof.
  intros doc df. split; [ reflexivity | split; [ reflexivity | ] ].
  apply daily_rows_within_trend. lia.
Defined.

End Windows.
